(** * The GST invoice matcher

    A shallow embedding of [GSTMatcher.clean_invoice] and
    [GSTMatcher.match_invoices] of [gst_matcher.py], and the properties of
    the matching engine proved about it; then of the other functions of
    the class, [load_config], [get_default_config], the constructor,
    [load_data] and [save_results], and of the sequence in which [main] of
    [app.py] runs the loader and the matcher.

    Modelling choices.
    - A pandas [DataFrame] is the list of its rows, in index order.  A row
      is a record with one field per column of the canonical tables that
      [load_data] builds (the configured columns and [Total]); the two
      columns that [match_invoices] itself writes, [Clean_Invoice] and
      [Date_Str], are optional fields: [None] when the frame does not have
      the column yet.
    - [match_invoices] assigns columns of the frames it is handed, so it is
      embedded in state-passing style: it returns the two frames as the
      call leaves them, together with its outcome.
    - A Python exception is the left injection of the [result] type.  A
      column read by a label that a frame may lack goes through a lookup
      that raises [KeyError]; a read of a canonical column is the field
      projection.
    - Tax amounts and the tolerance are integers (amounts in minor units);
      text cells, invoice numbers included, are strings of bytes.
    - The Python [set] of matched invoice numbers is a [gset string]; it is
      only tested for membership.
    - The inner join lists its rows in the order of the left rows and, for
      one left row, in the order of the right rows. *)

From Stdlib Require Import ZArith String Ascii List.
From stdpp Require Import base decidable option list sets gmap strings.

Local Open Scope string_scope.
Local Open Scope Z_scope.

(** ** Exceptions and the error monad *)

Inductive exn : Type :=
| KeyError (label : string).

Definition result (A : Type) : Type := (exn + A)%type.

Definition ret {A : Type} (a : A) : result A := inr a.
Definition raise {A : Type} (e : exn) : result A := inl e.

Global Arguments ret {A} a /.
Global Arguments raise {A} e /.

Definition bind {A B : Type} (m : result A) (k : A -> result B) : result B :=
  match m with
  | inl e => inl e
  | inr a => k a
  end.

Notation "'let*' x ':=' m 'in' k" := (bind m (fun x => k))
  (at level 10, x pattern, m at level 100, k at level 200).

(** [for _, row in df.iterrows(): out.append(f(row))], where [f] may raise. *)
Fixpoint append_each {A B : Type} (f : A -> result B) (df : list A)
  : result (list B) :=
  match df with
  | [] => ret []
  | row :: df' =>
      let* x := f row in
      let* xs := append_each f df' in
      ret (x :: xs)
  end.

(** [df[label]] on a row: the value if the column is there, else [KeyError]. *)
Definition column {A : Type} (label : string) (v : option A) : result A :=
  match v with
  | Some a => ret a
  | None => raise (KeyError label)
  end.

(** ** Invoice-number normalisation *)

(** The character class [[0-9a-zA-Z]] of the pattern in [clean_invoice]. *)
Definition alnum (c : ascii) : bool :=
  let n := nat_of_ascii c in
  ((48 <=? n) && (n <=? 57) || (65 <=? n) && (n <=? 90)
   || (97 <=? n) && (n <=? 122))%nat.

(** [re.sub('[^0-9a-zA-Z]+', repl, s)]: every maximal run of characters
    outside the class is replaced by [repl].  [in_run] tells that the
    previous character already belonged to the run being replaced. *)
Fixpoint re_sub_runs (repl : string) (in_run : bool) (s : string) : string :=
  match s with
  | EmptyString => EmptyString
  | String c s' =>
      if alnum c then String c (re_sub_runs repl false s')
      else if in_run then re_sub_runs repl true s'
      else repl ++ re_sub_runs repl true s'
  end.

Definition clean_invoice (invoice : string) : string :=
  re_sub_runs "" false invoice.

(** The wording of the specification: the characters that are not
    alphanumeric are removed, the others are kept in order. *)
Fixpoint strip_non_alnum (s : string) : string :=
  match s with
  | EmptyString => EmptyString
  | String c s' =>
      if alnum c then String c (strip_non_alnum s') else strip_non_alnum s'
  end.

(** ** Dates *)

Record date : Type := mkdate { year : nat; month : nat; day : nat }.

Global Instance date_eq_dec : EqDecision date.
Proof. solve_decision. Defined.

Definition digit (n : nat) : string :=
  String (ascii_of_nat (48 + n mod 10)) EmptyString.

(** [%d] and [%m]: two digits; [%Y]: four digits (a pandas timestamp has a
    four-digit year). *)
Definition pad2 (n : nat) : string := digit (n / 10) ++ digit n.
Definition pad4 (n : nat) : string :=
  digit (n / 1000) ++ digit (n / 100) ++ digit (n / 10) ++ digit n.

(** [.dt.strftime('%d-%m-%Y')] *)
Definition strftime_dmY (d : date) : string :=
  pad2 (day d) ++ "-" ++ pad2 (month d) ++ "-" ++ pad4 (year d).

(** ** The canonical tables *)

(** A cell value, for column access by label. *)
Inductive cell : Type :=
| Str (s : string)
| Num (z : Z)
| Date (d : date).

Global Instance cell_eq_dec : EqDecision cell.
Proof. solve_decision. Defined.

Module Company.

(** One row of the company table.  Column headers, in field order:
    ["GSTIN of supplier"], ["Party Name"], ["Accounting Document No"],
    ["Invoice No"], ["Invoice Date"], ["CGST Amount"], ["SGST Amount"],
    ["IGST Amount"], ["Total"], ["Clean_Invoice"], ["Date_Str"]. *)
Record row : Type := mk {
  gstin : string;
  party_name : string;
  accounting_doc : string;
  invoice_no : string;
  invoice_date : date;
  cgst : Z;
  sgst : Z;
  igst : Z;
  Total : Z;
  Clean_Invoice : option string;
  Date_Str : option string
}.

(** [df['Clean_Invoice'] = ...], row by row *)
Definition set_Clean_Invoice (v : string) (r : row) : row :=
  mk (gstin r) (party_name r) (accounting_doc r) (invoice_no r)
     (invoice_date r) (cgst r) (sgst r) (igst r) (Total r)
     (Some v) (Date_Str r).

(** [df['Date_Str'] = ...], row by row *)
Definition set_Date_Str (v : string) (r : row) : row :=
  mk (gstin r) (party_name r) (accounting_doc r) (invoice_no r)
     (invoice_date r) (cgst r) (sgst r) (igst r) (Total r)
     (Clean_Invoice r) (Some v).

End Company.

Module Portal.

(** One row of the portal table.  Column headers, in field order:
    ["GSTIN of supplier"], ["Invoice number"], ["Invoice Date"],
    ["Central Tax(₹)"], ["State/UT Tax(₹)"], ["Integrated Tax(₹)"],
    ["Total"], ["Clean_Invoice"]. *)
Record row : Type := mk {
  gstin : string;
  invoice_no : string;
  invoice_date : date;
  cgst : Z;
  sgst : Z;
  igst : Z;
  Total : Z;
  Clean_Invoice : option string
}.

Definition set_Clean_Invoice (v : string) (r : row) : row :=
  mk (gstin r) (invoice_no r) (invoice_date r) (cgst r) (sgst r) (igst r)
     (Total r) (Some v).

(** [row[label]] for an arbitrary label: the cell of that column, or
    [KeyError] when the portal frame has no column of that name.  At a
    header of the record this is the field projection. *)
Definition getitem (r : row) (label : string) : result cell :=
  if String.eqb label "GSTIN of supplier" then ret (Str (gstin r))
  else if String.eqb label "Invoice number" then ret (Str (invoice_no r))
  else if String.eqb label "Invoice Date" then ret (Date (invoice_date r))
  else if String.eqb label "Central Tax(₹)" then ret (Num (cgst r))
  else if String.eqb label "State/UT Tax(₹)" then ret (Num (sgst r))
  else if String.eqb label "Integrated Tax(₹)" then ret (Num (igst r))
  else if String.eqb label "Total" then ret (Num (Total r))
  else if String.eqb label "Clean_Invoice"
       then column label (Str <$> Clean_Invoice r)
  else raise (KeyError label).

End Portal.

(** ** The output records *)

Inductive match_status : Type := Exact | Close.

Global Instance match_status_eq_dec : EqDecision match_status.
Proof. solve_decision. Defined.

Module Matched.

(** A dict of [matched_records] or [close_matched_records]; the keys are
    ['GSTIN'], ['Party Name'], ['Accounting Document No'], ['Invoice No'],
    ['Invoice Date'], ['Firm Total'], ['Portal Total'], ['Difference'],
    ['Match Status'], ['Portal Match']. *)
Record record : Type := mk {
  GSTIN : string;
  Party_Name : string;
  Accounting_Document_No : string;
  Invoice_No : string;
  Invoice_Date : string;
  Firm_Total : Z;
  Portal_Total : Z;
  Difference : Z;
  Match_Status : match_status;
  Portal_Match : string
}.

End Matched.

Module Unmatched.

(** A dict of [unmatched_records]. *)
Record record : Type := mk {
  GSTIN : string;
  Party_Name : string;
  Invoice_No : string;
  Invoice_Date : string;
  Firm_Total : Z
}.

End Unmatched.

(** ** Loops and pandas primitives *)

(** [for x in l: st = body(st, x)], where [body] may raise. *)
Fixpoint for_each {A S : Type} (body : S -> A -> result S) (l : list A)
  (st : S) : result S :=
  match l with
  | [] => ret st
  | x :: l' => let* st' := body st x in for_each body l' st'
  end.

(** [Series.unique()]: the distinct values in order of first appearance. *)
Fixpoint unique_from (seen : gset string) (l : list string) : list string :=
  match l with
  | [] => []
  | x :: l' =>
      if decide (x ∈ seen) then unique_from seen l'
      else x :: unique_from ({[x]} ∪ seen) l'
  end.

Definition unique (l : list string) : list string := unique_from ∅ l.

(** [df[label]] on a portal frame, as the series of its cells. *)
Definition getitem_frame (df : list Portal.row) (label : string)
  : result (list cell) :=
  append_each (fun r => Portal.getitem r label) df.

(** [left.merge(right, on=['GSTIN of supplier', 'Clean_Invoice'],
    how='inner', suffixes=('_company', '_portal'))].  A row of the merged
    frame is the pair of the two rows it joins: its columns
    ['Total_company'] and ['Total_portal'] are the [Total] of the first and
    of the second component, the columns that only one side has keep their
    name.  The result keeps the order of the left rows and, for one left
    row, the order of the right rows. *)
Definition merge (left : list Company.row) (right : list Portal.row)
  : result (list (Company.row * Portal.row)) :=
  let* lkeys :=
    append_each (fun r => column "Clean_Invoice" (Company.Clean_Invoice r))
      left in
  let* rkeys :=
    append_each (fun r => column "Clean_Invoice" (Portal.Clean_Invoice r))
      right in
  ret (flat_map
         (fun lk =>
            map (fun rk => (fst lk, fst rk))
              (filter
                 (fun rk => Company.gstin (fst lk) = Portal.gstin (fst rk)
                            ∧ snd lk = snd rk)
                 (zip right rkeys)))
         (zip left lkeys)).

(** ** [match_invoices] *)

(** The dict appended to [matched_records] for one row of [exact_matches]. *)
Definition exact_record (row : Company.row * Portal.row)
  : result Matched.record :=
  let* date_str := column "Date_Str" (Company.Date_Str (fst row)) in
  ret (Matched.mk
         (Company.gstin (fst row))
         (Company.party_name (fst row))
         (Company.accounting_doc (fst row))
         (Company.invoice_no (fst row))
         date_str
         (Company.Total (fst row))
         (Portal.Total (snd row))
         (Portal.Total (snd row) - Company.Total (fst row))
         Exact
         (Portal.invoice_no (snd row))).

(** The dict appended to [unmatched_records] for one row of
    [final_unmatched]. *)
Definition unmatched_record (row : Company.row) : result Unmatched.record :=
  let* date_str := column "Date_Str" (Company.Date_Str row) in
  ret (Unmatched.mk
         (Company.gstin row)
         (Company.party_name row)
         (Company.invoice_no row)
         date_str
         (Company.Total row)).

(** The boolean-mask selection [portal_subset[(portal_subset['Invoice
    Date_x'] == company_row['Invoice Date']) & (abs(portal_subset['Total']
    - company_row['Total']) <= buffer_size)]].  The date series is looked up
    first, under the label the source writes. *)
Definition close_matches (portal_subset : list Portal.row)
  (company_row : Company.row) (buffer_size : Z) : result (list Portal.row) :=
  let* dates := getitem_frame portal_subset "Invoice Date_x" in
  ret (map snd
         (filter
            (fun dp =>
               fst dp = Date (Company.invoice_date company_row)
               ∧ Z.abs (Portal.Total (snd dp) - Company.Total company_row)
                 <= buffer_size)
            (zip dates portal_subset))).

(** The state of the second pass: [close_matched_records] and
    [matched_invoices]. *)
Definition close_state : Type := (list Matched.record * gset string)%type.

(** The body of [for _, company_row in company_subset.iterrows()]. *)
Definition close_row (gstin : string) (portal_subset : list Portal.row)
  (buffer_size : Z) (st : close_state) (company_row : Company.row)
  : result close_state :=
  let* close_matches := close_matches portal_subset company_row buffer_size in
  match close_matches with
  | [] => ret st
  | portal_row :: _ =>
      let* date_str := column "Date_Str" (Company.Date_Str company_row) in
      ret ((fst st ++
             [Matched.mk
                gstin
                (Company.party_name company_row)
                (Company.accounting_doc company_row)
                (Company.invoice_no company_row)
                date_str
                (Company.Total company_row)
                (Portal.Total portal_row)
                (Portal.Total portal_row - Company.Total company_row)
                Close
                (Portal.invoice_no portal_row)])%list,
           snd st ∪ {[Company.invoice_no company_row]})
  end.

(** The body of [for gstin in unmatched_company['GSTIN of supplier']
    .unique()]. *)
Definition close_gstin (unmatched_company : list Company.row)
  (portal_df : list Portal.row) (buffer_size : Z) (st : close_state)
  (gstin : string) : result close_state :=
  let company_subset :=
    filter (fun r => Company.gstin r = gstin) unmatched_company in
  let portal_subset :=
    filter (fun r => Portal.gstin r = gstin) portal_df in
  match portal_subset with
  | [] => ret st
  | _ :: _ =>
      for_each (close_row gstin portal_subset buffer_size) company_subset st
  end.

(** Lines 72 to 75: the columns written into the caller's frames. *)
Definition assign_company (company_df : list Company.row)
  : list Company.row :=
  let company_df :=
    map (fun r =>
           Company.set_Clean_Invoice (clean_invoice (Company.invoice_no r)) r)
      company_df in
  map (fun r =>
         Company.set_Date_Str (strftime_dmY (Company.invoice_date r)) r)
    company_df.

Definition assign_portal (portal_df : list Portal.row) : list Portal.row :=
  map (fun r =>
         Portal.set_Clean_Invoice (clean_invoice (Portal.invoice_no r)) r)
    portal_df.

(** Lines 77 to 100: the inner join and the invoice numbers it matched. *)
Definition matched_invoices_of (exact_matches : list (Company.row * Portal.row))
  : gset string :=
  list_to_set (map (fun row => Company.invoice_no (fst row)) exact_matches).

(** [df[~df['Invoice No'].isin(matched_invoices)]] *)
Definition not_isin (matched_invoices : gset string)
  (company_df : list Company.row) : list Company.row :=
  filter (fun r => Company.invoice_no r ∉ matched_invoices) company_df.

(** Lines 77 to 143, on the frames as lines 72 to 75 left them. *)
Definition match_body (company_df : list Company.row)
  (portal_df : list Portal.row) (buffer_size : Z)
  : result (list Matched.record * list Unmatched.record) :=
  let* exact_matches := merge company_df portal_df in
  let* matched_records := append_each exact_record exact_matches in
  let matched_invoices := matched_invoices_of exact_matches in
  let unmatched_company := not_isin matched_invoices company_df in
  let* st :=
    if bool_decide (0 < buffer_size) then
      for_each (close_gstin unmatched_company portal_df buffer_size)
        (unique (map Company.gstin unmatched_company))
        ([], matched_invoices)
    else ret ([], matched_invoices) in
  let close_matched_records := fst st in
  let matched_invoices := snd st in
  let final_unmatched := not_isin matched_invoices company_df in
  let* unmatched_records := append_each unmatched_record final_unmatched in
  ret ((matched_records ++ close_matched_records)%list, unmatched_records).

(** [match_invoices company_df portal_df buffer_size]: the two frames as
    the call leaves them, and the returned pair [(matched, unmatched)] or
    the exception raised. *)
Definition match_invoices (company_df : list Company.row)
  (portal_df : list Portal.row) (buffer_size : Z)
  : (list Company.row * list Portal.row)
    * result (list Matched.record * list Unmatched.record) :=
  let company_df := assign_company company_df in
  let portal_df := assign_portal portal_df in
  ((company_df, portal_df), match_body company_df portal_df buffer_size).

(** ** Pure readings of the rows

    What the loops compute on frames whose derived columns hold what
    lines 72 to 75 write. *)

Definition prepared_company (r : Company.row) : Prop :=
  Company.Clean_Invoice r = Some (clean_invoice (Company.invoice_no r))
  ∧ Company.Date_Str r = Some (strftime_dmY (Company.invoice_date r)).

Definition prepared_portal (r : Portal.row) : Prop :=
  Portal.Clean_Invoice r = Some (clean_invoice (Portal.invoice_no r)).

(** The join condition of the first pass. *)
Definition same_key (c : Company.row) (p : Portal.row) : Prop :=
  Company.gstin c = Portal.gstin p
  ∧ clean_invoice (Company.invoice_no c) = clean_invoice (Portal.invoice_no p).

Definition exact_pairs (company_df : list Company.row)
  (portal_df : list Portal.row) : list (Company.row * Portal.row) :=
  flat_map (fun c => map (pair c) (filter (same_key c) portal_df)) company_df.

Definition exact_record_of (row : Company.row * Portal.row) : Matched.record :=
  Matched.mk
    (Company.gstin (fst row))
    (Company.party_name (fst row))
    (Company.accounting_doc (fst row))
    (Company.invoice_no (fst row))
    (strftime_dmY (Company.invoice_date (fst row)))
    (Company.Total (fst row))
    (Portal.Total (snd row))
    (Portal.Total (snd row) - Company.Total (fst row))
    Exact
    (Portal.invoice_no (snd row)).

Definition unmatched_record_of (row : Company.row) : Unmatched.record :=
  Unmatched.mk
    (Company.gstin row)
    (Company.party_name row)
    (Company.invoice_no row)
    (strftime_dmY (Company.invoice_date row))
    (Company.Total row).

(** An unmatched company row has a portal row under its GSTIN: the second
    pass has a candidate to examine. *)
Definition has_candidate (unmatched_company : list Company.row)
  (portal_df : list Portal.row) : Prop :=
  Exists (fun c => Exists (fun p => Portal.gstin p = Company.gstin c) portal_df)
    unmatched_company.

(** ** The rows after the column assignments *)

Definition prep_company (r : Company.row) : Company.row :=
  Company.set_Date_Str (strftime_dmY (Company.invoice_date r))
    (Company.set_Clean_Invoice (clean_invoice (Company.invoice_no r)) r).

Definition prep_portal (r : Portal.row) : Portal.row :=
  Portal.set_Clean_Invoice (clean_invoice (Portal.invoice_no r)) r.

(** ** The outcome of the two passes *)

Definition gstin_on_portal (portal_df : list Portal.row) (gstin : string)
  : Prop :=
  Exists (fun p => Portal.gstin p = gstin) portal_df.

(** The set [matched_invoices] after the first pass, and the frame
    [unmatched_company]. *)
Definition pass1_matched_invoices (company_df : list Company.row)
  (portal_df : list Portal.row) : gset string :=
  matched_invoices_of (exact_pairs company_df portal_df).

Definition unmatched_after_pass1 (company_df : list Company.row)
  (portal_df : list Portal.row) : list Company.row :=
  not_isin (pass1_matched_invoices company_df portal_df) company_df.

(** The second pass runs and finds a portal row to compare with. *)
Definition reaches_comparison (company_df : list Company.row)
  (portal_df : list Portal.row) (buffer_size : Z) : Prop :=
  0 < buffer_size
  ∧ has_candidate (unmatched_after_pass1 company_df portal_df) portal_df.

Global Instance reaches_comparison_dec company_df portal_df buffer_size :
  Decision (reaches_comparison company_df portal_df buffer_size).
Proof. unfold reaches_comparison, has_candidate. apply _. Defined.

(** The outcome of a call is an exception. *)
Definition rejected {A : Type} (r : result A) : Prop := ∃ e, r = inl e.

(** The frame [exact_matches] of line 77, for the tables of a call. *)
Definition exact_matches (company_df : list Company.row)
  (portal_df : list Portal.row) : result (list (Company.row * Portal.row)) :=
  merge (assign_company company_df) (assign_portal portal_df).

(** The join condition in the words of the specification. *)
Definition same_gstin_and_cleaned_number (c : Company.row) (p : Portal.row)
  : Prop :=
  Company.gstin c = Portal.gstin p
  ∧ strip_non_alnum (Company.invoice_no c)
    = strip_non_alnum (Portal.invoice_no p).

(** ** What the returned records say *)

(** A matched record carries the fields of company row [c]. *)
Definition describes (m : Matched.record) (c : Company.row) : Prop :=
  Matched.GSTIN m = Company.gstin c
  ∧ Matched.Party_Name m = Company.party_name c
  ∧ Matched.Accounting_Document_No m = Company.accounting_doc c
  ∧ Matched.Invoice_No m = Company.invoice_no c
  ∧ Matched.Invoice_Date m = strftime_dmY (Company.invoice_date c)
  ∧ Matched.Firm_Total m = Company.Total c.

(** A matched record carries the fields of portal row [p]. *)
Definition pairs_with (m : Matched.record) (p : Portal.row) : Prop :=
  Matched.Portal_Total m = Portal.Total p
  ∧ Matched.Portal_Match m = Portal.invoice_no p.

(** The records of a returned matched list, one by one. *)
Definition exact_record_ok (company_df : list Company.row)
  (portal_df : list Portal.row) (m : Matched.record) : Prop :=
  Matched.Match_Status m = Exact
  ∧ ∃ c p, c ∈ company_df ∧ p ∈ portal_df ∧ same_key c p
           ∧ m = exact_record_of (c, p).

Definition close_record_ok (unmatched_company : list Company.row)
  (portal_df : list Portal.row) (m : Matched.record) : Prop :=
  Matched.Match_Status m = Close
  ∧ Matched.Difference m = Matched.Portal_Total m - Matched.Firm_Total m
  ∧ ∃ c p, c ∈ unmatched_company ∧ p ∈ portal_df
           ∧ Portal.gstin p = Company.gstin c
           ∧ describes m c ∧ pairs_with m p.

Definition close_inv (unmatched_company : list Company.row)
  (portal_df : list Portal.row) (matched_invoices : gset string)
  (st : close_state) : Prop :=
  Forall (close_record_ok unmatched_company portal_df) (fst st)
  ∧ ∀ x, x ∈ snd st
         ↔ x ∈ matched_invoices
           ∨ ∃ m, m ∈ fst st ∧ Matched.Invoice_No m = x.

(** ** The three buckets *)

(** Company record [c] is in the Exact bucket of a returned matched list. *)
Definition exact_matched (matched : list Matched.record) (c : Company.row)
  : Prop :=
  ∃ m, m ∈ matched ∧ Matched.Match_Status m = Exact ∧ describes m c.

(** Company record [c] is in the Close bucket. *)
Definition close_matched (matched : list Matched.record) (c : Company.row)
  : Prop :=
  ∃ m, m ∈ matched ∧ Matched.Match_Status m = Close ∧ describes m c.

(** Company record [c] is in the Unmatched bucket. *)
Definition is_unmatched (unmatched : list Unmatched.record) (c : Company.row)
  : Prop :=
  unmatched_record_of c ∈ unmatched.

(** [c] is in one bucket and in no two. *)
Definition classified_once (matched : list Matched.record)
  (unmatched : list Unmatched.record) (c : Company.row) : Prop :=
  (exact_matched matched c ∨ close_matched matched c
   ∨ is_unmatched unmatched c)
  ∧ ¬ (exact_matched matched c ∧ close_matched matched c)
  ∧ ¬ (exact_matched matched c ∧ is_unmatched unmatched c)
  ∧ ¬ (close_matched matched c ∧ is_unmatched unmatched c).

(** ** The frames after a call *)

(** Row [c'] has the canonical columns of row [c]. *)
Definition same_company_columns (c c' : Company.row) : Prop :=
  Company.gstin c' = Company.gstin c
  ∧ Company.party_name c' = Company.party_name c
  ∧ Company.accounting_doc c' = Company.accounting_doc c
  ∧ Company.invoice_no c' = Company.invoice_no c
  ∧ Company.invoice_date c' = Company.invoice_date c
  ∧ Company.cgst c' = Company.cgst c
  ∧ Company.sgst c' = Company.sgst c
  ∧ Company.igst c' = Company.igst c
  ∧ Company.Total c' = Company.Total c.

Definition same_portal_columns (p p' : Portal.row) : Prop :=
  Portal.gstin p' = Portal.gstin p
  ∧ Portal.invoice_no p' = Portal.invoice_no p
  ∧ Portal.invoice_date p' = Portal.invoice_date p
  ∧ Portal.cgst p' = Portal.cgst p
  ∧ Portal.sgst p' = Portal.sgst p
  ∧ Portal.igst p' = Portal.igst p
  ∧ Portal.Total p' = Portal.Total p.

(** ** Sample tables *)

Definition d_15_01_2024 : date := mkdate 2024 1 15.

Definition company_inv001 : Company.row :=
  Company.mk "27ABCDE1234F1Z5" "Acme Traders" "5100000001" "INV/001"
    d_15_01_2024 100 100 0 200 None None.

Definition company_inv007 : Company.row :=
  Company.mk "27ABCDE1234F1Z5" "Acme Traders" "5100000007" "INV/007"
    d_15_01_2024 100 100 0 200 None None.

(** Another supplier's invoice that happens to carry the number INV/001. *)
Definition company_other_inv001 : Company.row :=
  Company.mk "29PQRSX6789L1Z2" "Bharat Tools" "5100000002" "INV/001"
    d_15_01_2024 50 50 0 100 None None.

Definition portal_inv001 : Portal.row :=
  Portal.mk "27ABCDE1234F1Z5" "INV-001" d_15_01_2024 105 100 0 205 None.

Definition portal_inv002 : Portal.row :=
  Portal.mk "27ABCDE1234F1Z5" "INV-002" d_15_01_2024 100 100 0 200 None.

Definition matched_inv001 : Matched.record :=
  Matched.mk "27ABCDE1234F1Z5" "Acme Traders" "5100000001" "INV/001"
    "15-01-2024" 200 205 5 Exact "INV-001".

Definition unmatched_inv007 : Unmatched.record :=
  Unmatched.mk "27ABCDE1234F1Z5" "Acme Traders" "INV/007" "15-01-2024" 200.

(** * The other functions *)

(** Every character of [s] is in the class [[0-9a-zA-Z]]. *)
Fixpoint all_alnum (s : string) : bool :=
  match s with
  | EmptyString => true
  | String c s' => alnum c && all_alnum s'
  end.

(** The join key of a portal record. *)
Definition portal_key (p : Portal.row) : string * string :=
  (Portal.gstin p, clean_invoice (Portal.invoice_no p)).

(** The workbook written by [save_results]: the sheets ['Matched'] and
    ['Unmatched'], one row per record, in order. *)
Record workbook : Type := mk_workbook {
  Matched_sheet : list Matched.record;
  Unmatched_sheet : list Unmatched.record
}.

(** [save_results matched_records unmatched_records output_path]: the
    workbook stored under [output_path] and the returned pair of counts. *)
Definition save_results (matched_records : list Matched.record)
  (unmatched_records : list Unmatched.record) : workbook * (nat * nat) :=
  (mk_workbook matched_records unmatched_records,
   (length matched_records, length unmatched_records)).

(** * The loader

    [load_config], [get_default_config], the constructor and [load_data].
    The loader works on frames whose columns are not fixed, so a frame is
    here the list of its columns, each a label with its series; the labels
    of a frame are distinct, as [pd.read_excel] makes them.  What the
    pandas functions [to_datetime] and [+] do to one cell is a parameter
    of the development. *)

(** A cell of a sheet as [pd.read_excel] delivers it. *)
Inductive raw_cell : Type :=
| Text (s : string)
| Number (z : Z)
| Timestamp (d : date)
| Blank.

Global Instance raw_cell_eq_dec : EqDecision raw_cell.
Proof. solve_decision. Defined.

Definition sheet : Type := list (string * list raw_cell).

(** What the body of the [try] block of [load_data] can raise. *)
Inductive load_exn : Type :=
| LKeyError (missing : list string)
| Other_exception.

Definition loading (A : Type) : Type := (load_exn + A)%type.

Definition and_then {A B : Type} (m : loading A) (k : A -> loading B)
  : loading B :=
  match m with
  | inl e => inl e
  | inr a => k a
  end.

Notation "'let+' x ':=' m 'in' k" := (and_then m (fun x => k))
  (at level 10, x pattern, m at level 100, k at level 200).

(** The [ValueError] that [load_data] raises, by its message:
    ["Column not found: ..."] or ["Error loading data: ..."]. *)
Inductive ValueError : Type :=
| Column_not_found (missing : list string)
| Error_loading_data.

(** The configuration: [config['columns']['company']] and
    [config['columns']['portal']] as dicts in insertion order, and the two
    entries of [config['date_formats']].  A configuration file is taken to
    hold a configuration with these entries. *)
Record config : Type := mk_config {
  columns_company : list (string * string);
  columns_portal : list (string * string);
  date_formats_company : string;
  date_formats_portal : string
}.

Definition get_default_config : config :=
  mk_config
    [("gstin", "GSTIN of supplier"); ("party_name", "Party Name");
     ("accounting_doc", "Accounting Document No");
     ("invoice_no", "Invoice No"); ("invoice_date", "Invoice Date");
     ("cgst", "CGST Amount"); ("sgst", "SGST Amount");
     ("igst", "IGST Amount")]
    [("gstin", "GSTIN of supplier"); ("invoice_no", "Invoice number");
     ("invoice_date", "Invoice Date"); ("cgst", "Central Tax(₹)");
     ("sgst", "State/UT Tax(₹)"); ("igst", "Integrated Tax(₹)")]
    "%d-%m-%Y" "%d/%m/%Y".

(** [load_config config_path]; [config_file] is the configuration stored
    under [config_path], [None] when there is no such file. *)
Definition load_config (config_file : option config) : config :=
  match config_file with
  | Some c => c
  | None => get_default_config
  end.

Record GSTMatcher : Type := mk_GSTMatcher {
  self_config : config;
  company_columns : list string;
  portal_columns : list string
}.

(** [GSTMatcher.__init__] *)
Definition init (config_file : option config) : GSTMatcher :=
  let config := load_config config_file in
  mk_GSTMatcher config
    (map snd (columns_company config))
    (map snd (columns_portal config)).

Definition labels (df : sheet) : list string := map fst df.

Fixpoint lookup_column (df : sheet) (label : string)
  : option (list raw_cell) :=
  match df with
  | [] => None
  | (l, series) :: df' =>
      if String.eqb l label then Some series else lookup_column df' label
  end.

(** [df[label]] *)
Definition getitem_column (df : sheet) (label : string)
  : loading (list raw_cell) :=
  match lookup_column df label with
  | Some series => inr series
  | None => inl (LKeyError [label])
  end.

(** The requested labels that the frame lacks, and the columns found. *)
Fixpoint select_columns (df : sheet) (wanted : list string)
  : list string * sheet :=
  match wanted with
  | [] => ([], [])
  | l :: wanted' =>
      let (missing, found) := select_columns df wanted' in
      match lookup_column df l with
      | Some series => (missing, (l, series) :: found)
      | None => (l :: missing, found)
      end
  end.

(** [df[wanted]] for a list of labels: a new frame with these columns in
    this order, or a [KeyError] naming the labels that are not there. *)
Definition getitem_columns (df : sheet) (wanted : list string)
  : loading sheet :=
  match select_columns df wanted with
  | ([], found) => inr found
  | (missing, _) => inl (LKeyError missing)
  end.

(** [df[label] = series]: the column is replaced where it stands, or
    added as the last column. *)
Fixpoint setitem (df : sheet) (label : string) (series : list raw_cell)
  : sheet :=
  match df with
  | [] => [(label, series)]
  | (l, old) :: df' =>
      if String.eqb l label then (l, series) :: df'
      else (l, old) :: setitem df' label series
  end.

Section Loader.

(** [pd.to_datetime] with a format, on one cell: the parsed cell, or
    [None] when it raises. *)
Variable to_datetime_cell : string -> raw_cell -> option raw_cell.

(** [+] on two cells: the sum, or [None] when it raises. *)
Variable add_cell : raw_cell -> raw_cell -> option raw_cell.

Definition to_datetime (series : list raw_cell) (format : string)
  : loading (list raw_cell) :=
  match mapM (to_datetime_cell format) series with
  | Some parsed => inr parsed
  | None => inl Other_exception
  end.

(** [a + b] on two series of one frame. *)
Definition add_series (a b : list raw_cell) : loading (list raw_cell) :=
  match mapM (fun xy => add_cell (fst xy) (snd xy)) (zip a b) with
  | Some sums => inr sums
  | None => inl Other_exception
  end.

(** [pd.read_excel(path)[columns]]; [file] is the sheet stored under
    [path], [None] when reading it raises. *)
Definition read_columns (file : option sheet) (columns : list string)
  : loading sheet :=
  match file with
  | Some df => getitem_columns df columns
  | None => inl Other_exception
  end.

(** [df['Invoice Date'] = pd.to_datetime(df['Invoice Date'], format)] *)
Definition parse_dates (df : sheet) (format : string) : loading sheet :=
  let+ dates := getitem_column df "Invoice Date" in
  let+ parsed := to_datetime dates format in
  inr (setitem df "Invoice Date" parsed).

(** [df['Total'] = df[cgst] + df[sgst] + df[igst]] *)
Definition add_total (df : sheet) (cgst sgst igst : string) : loading sheet :=
  let+ c := getitem_column df cgst in
  let+ s := getitem_column df sgst in
  let+ cs := add_series c s in
  let+ i := getitem_column df igst in
  let+ total := add_series cs i in
  inr (setitem df "Total" total).

(** The body of the [try] block of [load_data]. *)
Definition load_data_body (self : GSTMatcher)
  (company_file portal_file : option sheet) : loading (sheet * sheet) :=
  let+ company_df := read_columns company_file (company_columns self) in
  let+ portal_df := read_columns portal_file (portal_columns self) in
  let+ company_df :=
    parse_dates company_df (date_formats_company (self_config self)) in
  let+ portal_df :=
    parse_dates portal_df (date_formats_portal (self_config self)) in
  let+ company_df :=
    add_total company_df "CGST Amount" "SGST Amount" "IGST Amount" in
  let+ portal_df :=
    add_total portal_df "Central Tax(₹)" "State/UT Tax(₹)"
      "Integrated Tax(₹)" in
  inr (company_df, portal_df).

(** [load_data]: the two canonical tables, or the [ValueError] into which
    the two [except] clauses turn what the body raises. *)
Definition load_data (self : GSTMatcher)
  (company_file portal_file : option sheet) : ValueError + (sheet * sheet) :=
  match load_data_body self company_file portal_file with
  | inr tables => inr tables
  | inl (LKeyError missing) => inl (Column_not_found missing)
  | inl Other_exception => inl Error_loading_data
  end.

(** Column 'Invoice Date' is there and [to_datetime] accepts each of its
    cells under [format]. *)
Definition parseable_dates (df : sheet) (format : string) : Prop :=
  ∃ dates, lookup_column df "Invoice Date" = Some dates
           ∧ Forall (fun raw => is_Some (to_datetime_cell format raw)) dates.

End Loader.

(** The cell of column [label] in row [i]. *)
Definition cell_at (df : sheet) (label : string) (i : nat) : option raw_cell :=
  lookup_column df label ≫= fun series => series !! i.

(** Every column of the frame has [n] rows. *)
Definition has_rows (n : nat) (df : sheet) : Prop :=
  Forall (fun col => length (snd col) = n) df.

(** Column [label] is there and holds numbers only. *)
Definition numeric_column (df : sheet) (label : string) : Prop :=
  ∃ series, lookup_column df label = Some series
            ∧ Forall (fun x => ∃ z, x = Number z) series.

(** ** Loaded tables as typed rows

    The tables that [load_data] returns are the tables that [main] hands
    to [match_invoices].  A loaded table whose cells have the types of the
    canonical table is read row by row as a list of typed rows; the
    columns [Clean_Invoice] and [Date_Str] are absent from it. *)









(** ** Sample sheets *)

(** Instances of the two parameters for the sample runs: a [to_datetime]
    that accepts the cells that already hold a timestamp, as
    [pd.read_excel] delivers date cells, and a [+] that adds numbers. *)
Definition sample_to_datetime_cell (format : string) (c : raw_cell)
  : option raw_cell :=
  match c with
  | Timestamp d => Some (Timestamp d)
  | _ => None
  end.

Definition sample_add_cell (a b : raw_cell) : option raw_cell :=
  match a, b with
  | Number x, Number y => Some (Number (x + y))
  | _, _ => None
  end.

Definition company_sheet_sample : sheet :=
  [("GSTIN of supplier", [Text "27ABCDE1234F1Z5"; Text "27ABCDE1234F1Z5"]);
   ("Party Name", [Text "Acme Traders"; Text "Acme Traders"]);
   ("Remarks", [Blank; Text "paid"]);
   ("Accounting Document No", [Text "5100000001"; Text "5100000007"]);
   ("Invoice No", [Text "INV/001"; Text "INV/007"]);
   ("Invoice Date", [Timestamp d_15_01_2024; Timestamp d_15_01_2024]);
   ("CGST Amount", [Number 100; Number 100]);
   ("SGST Amount", [Number 100; Number 100]);
   ("IGST Amount", [Number 0; Number 0])].

Definition portal_sheet_sample : sheet :=
  [("GSTIN of supplier", [Text "27ABCDE1234F1Z5"]);
   ("Invoice number", [Text "INV-001"]);
   ("Invoice Date", [Timestamp d_15_01_2024]);
   ("Central Tax(₹)", [Number 105]);
   ("State/UT Tax(₹)", [Number 100]);
   ("Integrated Tax(₹)", [Number 0])].

(** The company sheet without its 'Party Name' and 'IGST Amount' columns. *)
Definition company_sheet_short : sheet :=
  filter (fun col => fst col ≠ "Party Name" ∧ fst col ≠ "IGST Amount")
    company_sheet_sample.

Definition company_table_sample : sheet :=
  [("GSTIN of supplier", [Text "27ABCDE1234F1Z5"; Text "27ABCDE1234F1Z5"]);
   ("Party Name", [Text "Acme Traders"; Text "Acme Traders"]);
   ("Accounting Document No", [Text "5100000001"; Text "5100000007"]);
   ("Invoice No", [Text "INV/001"; Text "INV/007"]);
   ("Invoice Date", [Timestamp d_15_01_2024; Timestamp d_15_01_2024]);
   ("CGST Amount", [Number 100; Number 100]);
   ("SGST Amount", [Number 100; Number 100]);
   ("IGST Amount", [Number 0; Number 0]);
   ("Total", [Number 200; Number 200])].

Definition portal_table_sample : sheet :=
  (portal_sheet_sample ++ [("Total", [Number 205])])%list.

(** ** The error monad and the loops *)

Lemma bind_inr {A B : Type} (m : result A) (k : A -> result B) (b : B) :
  bind m k = inr b ↔ ∃ a, m = inr a ∧ k a = inr b.
Proof.
  destruct m as [e|a]; simpl; split.
  - discriminate.
  - intros (a & Ha & _). discriminate.
  - eauto.
  - intros (a' & Ha & Hk). by simplify_eq.
Qed.

Section Loops.
Context {A B S : Type}.

Lemma append_each_pure (f : A -> result B) (g : A -> B) (l : list A) :
  Forall (fun x => f x = inr (g x)) l → append_each f l = inr (map g l).
Proof.
  induction 1 as [|x l Hx _ IH]; simpl; [done|].
  by rewrite Hx, IH.
Qed.

Lemma append_each_raise (f : A -> result B) (e : exn) (x : A) (l : list A) :
  f x = inl e → append_each f (x :: l) = inl e.
Proof. intros Hx. simpl. by rewrite Hx. Qed.

Lemma for_each_invariant (I : S -> Prop) (body : S -> A -> result S)
  (l : list A) :
  (∀ st x st', x ∈ l → I st → body st x = inr st' → I st') →
  ∀ st st', I st → for_each body l st = inr st' → I st'.
Proof.
  induction l as [|x l IH]; intros Hbody st st' Hst Hrun; simpl in Hrun.
  - by simplify_eq.
  - apply bind_inr in Hrun as (st1 & H1 & Hrest).
    eapply IH; [| |exact Hrest].
    + intros s y s' Hy. apply Hbody. by right.
    + eapply Hbody; [by left|exact Hst|exact H1].
Qed.

(** A loop whose body either raises [e] or leaves the state alone. *)
Lemma for_each_skip_or_raise (hit : A -> Prop) `{!∀ x, Decision (hit x)}
  (e : exn) (body : S -> A -> result S) (l : list A) (st : S) :
  (∀ s x, x ∈ l → hit x → body s x = inl e) →
  (∀ s x, x ∈ l → ¬ hit x → body s x = inr s) →
  for_each body l st = if decide (Exists hit l) then inl e else inr st.
Proof.
  induction l as [|x l IH]; intros Hhit Hskip.
  - rewrite decide_False; [done|]. by intros ?%Exists_nil.
  - cbn [for_each]. destruct (decide (hit x)) as [Hx|Hx].
    + rewrite (Hhit st x), decide_True; [done|by left|by left|done].
    + rewrite (Hskip st x); [|by left|done]. cbn [bind].
      rewrite IH.
      * destruct (decide (Exists hit l)) as [Hl|Hl].
        -- rewrite decide_True; [done|by right].
        -- rewrite decide_False; [done|].
           by intros [?|?]%Exists_cons.
      * intros s y Hy. apply Hhit. by right.
      * intros s y Hy. apply Hskip. by right.
Qed.

End Loops.

Lemma zip_map_r {A B : Type} (f : A -> B) (l : list A) :
  zip l (map f l) = map (fun x => (x, f x)) l.
Proof. induction l; simpl; [done|]. by f_equal. Qed.

Lemma flat_map_map {A B C : Type} (h : A -> B) (g : B -> list C) (l : list A) :
  flat_map g (map h l) = flat_map (fun x => g (h x)) l.
Proof. induction l; simpl; [done|]. by f_equal. Qed.

Lemma filter_map {A B : Type} (h : A -> B) (Q : B -> Prop)
  `{!∀ y, Decision (Q y)} (l : list A) :
  filter Q (map h l) = map h (filter (fun x => Q (h x)) l).
Proof.
  induction l as [|x l IH]; simpl; [done|].
  rewrite !filter_cons. case_decide; simpl; by rewrite IH.
Qed.

Lemma unique_from_elem (seen : gset string) (l : list string) (x : string) :
  x ∈ unique_from seen l ↔ x ∈ l ∧ x ∉ seen.
Proof.
  revert seen. induction l as [|y l IH]; intros seen; simpl.
  - split; [intros H|intros [H _]]; by apply elem_of_nil in H.
  - case_decide as Hy.
    + rewrite IH, elem_of_cons. split; [intros [Hx Hs]; auto|].
      intros [[->|Hx] Hs]; [done|by split].
    + rewrite !elem_of_cons, IH, not_elem_of_union, not_elem_of_singleton.
      split.
      * intros [->|(Hx & Hne & Hs)]; split; auto.
      * intros [[->|Hx] Hs]; [by left|].
        destruct (decide (x = y)) as [->|]; [by left|by right].
Qed.

Lemma unique_elem (l : list string) (x : string) : x ∈ unique l ↔ x ∈ l.
Proof.
  unfold unique. rewrite unique_from_elem. split; [by intros [? _]|].
  intros Hx. split; [done|]. apply not_elem_of_empty.
Qed.

(** ** [clean_invoice] *)

Lemma re_sub_runs_empty (in_run : bool) (s : string) :
  re_sub_runs "" in_run s = strip_non_alnum s.
Proof.
  revert in_run. induction s as [|c s IH]; intros in_run; simpl; [done|].
  destruct (alnum c); [by rewrite IH|].
  destruct in_run; by rewrite IH.
Qed.

Lemma clean_invoice_strip (s : string) : clean_invoice s = strip_non_alnum s.
Proof. apply re_sub_runs_empty. Qed.

(** ** The column assignments *)

Lemma assign_company_map (company_df : list Company.row) :
  assign_company company_df = map prep_company company_df.
Proof. unfold assign_company. by rewrite map_map. Qed.

Lemma assign_portal_map (portal_df : list Portal.row) :
  assign_portal portal_df = map prep_portal portal_df.
Proof. done. Qed.

Lemma prep_company_prepared (r : Company.row) :
  prepared_company (prep_company r).
Proof. by split. Qed.

Lemma prep_portal_prepared (r : Portal.row) : prepared_portal (prep_portal r).
Proof. done. Qed.

Lemma assign_company_prepared (company_df : list Company.row) :
  Forall prepared_company (assign_company company_df).
Proof.
  rewrite assign_company_map. apply Forall_forall.
  intros r (r0 & -> & _)%list_elem_of_fmap. apply prep_company_prepared.
Qed.

Lemma assign_portal_prepared (portal_df : list Portal.row) :
  Forall prepared_portal (assign_portal portal_df).
Proof.
  rewrite assign_portal_map. apply Forall_forall.
  intros r (r0 & -> & _)%list_elem_of_fmap. apply prep_portal_prepared.
Qed.

Lemma prep_company_idemp (r : Company.row) :
  prep_company (prep_company r) = prep_company r.
Proof. done. Qed.

Lemma prep_portal_idemp (r : Portal.row) :
  prep_portal (prep_portal r) = prep_portal r.
Proof. done. Qed.

Lemma same_key_prep (c : Company.row) (p : Portal.row) :
  same_key (prep_company c) (prep_portal p) ↔ same_key c p.
Proof. done. Qed.

(** ** The first pass *)

Lemma merge_prepared (company_df : list Company.row)
  (portal_df : list Portal.row) :
  Forall prepared_company company_df →
  Forall prepared_portal portal_df →
  merge company_df portal_df = inr (exact_pairs company_df portal_df).
Proof.
  intros HC HP. unfold merge.
  rewrite (append_each_pure _ (fun r => clean_invoice (Company.invoice_no r))).
  2:{ eapply Forall_impl; [exact HC|]. by intros r [-> _]. }
  rewrite (append_each_pure _ (fun r => clean_invoice (Portal.invoice_no r))).
  2:{ eapply Forall_impl; [exact HP|]. by intros r ->. }
  cbn [bind ret]. f_equal. rewrite !zip_map_r, flat_map_map.
  unfold exact_pairs. apply flat_map_ext. intros c. cbn [fst snd].
  rewrite filter_map, map_map. done.
Qed.

Lemma exact_pairs_elem (company_df : list Company.row)
  (portal_df : list Portal.row) (c : Company.row) (p : Portal.row) :
  (c, p) ∈ exact_pairs company_df portal_df
  ↔ c ∈ company_df ∧ p ∈ portal_df ∧ same_key c p.
Proof.
  unfold exact_pairs. rewrite list_elem_of_In, in_flat_map. split.
  - intros (c' & Hc' & Hin). apply list_elem_of_In in Hc', Hin.
    apply list_elem_of_fmap in Hin as (p' & Heq & Hp').
    apply list_elem_of_filter in Hp' as [Hk Hp']. by simplify_eq.
  - intros (Hc & Hp & Hk). exists c. split; [by apply list_elem_of_In|].
    apply list_elem_of_In, list_elem_of_fmap. exists p. split; [done|].
    by apply list_elem_of_filter.
Qed.

Lemma exact_pairs_prep (company_df : list Company.row)
  (portal_df : list Portal.row) :
  exact_pairs (map prep_company company_df) (map prep_portal portal_df)
  = map (fun row => (prep_company (fst row), prep_portal (snd row)))
      (exact_pairs company_df portal_df).
Proof.
  unfold exact_pairs.
  induction company_df as [|c l IH]; simpl; [done|].
  rewrite map_app, IH. f_equal.
  rewrite filter_map, !map_map. done.
Qed.

Lemma exact_records_pure (rows : list (Company.row * Portal.row)) :
  Forall (fun row => prepared_company (fst row)) rows →
  append_each exact_record rows = inr (map exact_record_of rows).
Proof.
  intros H. apply append_each_pure. eapply Forall_impl; [exact H|].
  intros [c p] [_ Hd]. unfold exact_record, exact_record_of. simpl in *.
  by rewrite Hd.
Qed.

Lemma unmatched_records_pure (rows : list Company.row) :
  Forall prepared_company rows →
  append_each unmatched_record rows = inr (map unmatched_record_of rows).
Proof.
  intros H. apply append_each_pure. eapply Forall_impl; [exact H|].
  intros c [_ Hd]. unfold unmatched_record, unmatched_record_of.
  by rewrite Hd.
Qed.

(** ** Column access on the portal frame *)

Lemma getitem_Invoice_Date (r : Portal.row) :
  Portal.getitem r "Invoice Date" = inr (Date (Portal.invoice_date r)).
Proof. reflexivity. Qed.

Lemma getitem_Total (r : Portal.row) :
  Portal.getitem r "Total" = inr (Num (Portal.Total r)).
Proof. reflexivity. Qed.

(** No column of the portal frame is labelled ['Invoice Date_x']: the merge
    of the first pass renames with the suffixes ['_company'] and
    ['_portal'], and it renames in its own result, not in [portal_df]. *)
Lemma getitem_Invoice_Date_x (r : Portal.row) :
  Portal.getitem r "Invoice Date_x" = inl (KeyError "Invoice Date_x").
Proof. reflexivity. Qed.

Lemma close_matches_raise (p : Portal.row) (portal_subset : list Portal.row)
  (company_row : Company.row) (buffer_size : Z) :
  close_matches (p :: portal_subset) company_row buffer_size
  = inl (KeyError "Invoice Date_x").
Proof.
  unfold close_matches, getitem_frame.
  by rewrite (append_each_raise
                (fun r => Portal.getitem r "Invoice Date_x") _ p portal_subset
                (getitem_Invoice_Date_x p)).
Qed.

Lemma close_matches_sub (portal_subset selected : list Portal.row)
  (company_row : Company.row) (buffer_size : Z) :
  close_matches portal_subset company_row buffer_size = inr selected →
  selected ⊆ portal_subset.
Proof.
  unfold close_matches. intros (dates & _ & Hsel)%bind_inr.
  simpl in Hsel. simplify_eq. intros p Hp.
  apply list_elem_of_fmap in Hp as ([d p'] & -> & Hin).
  apply list_elem_of_filter in Hin as [_ Hin].
  by apply elem_of_zip_r in Hin.
Qed.

(** ** The second pass *)

Lemma filter_nil_not_Exists {A : Type} (Q : A -> Prop)
  `{!∀ x, Decision (Q x)} (l : list A) :
  filter Q l = [] ↔ ¬ Exists Q l.
Proof.
  induction l as [|x l IH]; [rewrite Exists_nil; tauto|].
  rewrite filter_cons, Exists_cons. destruct (decide (Q x)) as [Hx|Hx].
  - split; [discriminate|]. intros Hn. destruct Hn. by left.
  - rewrite IH. tauto.
Qed.

Lemma close_gstin_skip (unmatched_company : list Company.row)
  (portal_df : list Portal.row) (buffer_size : Z) (st : close_state)
  (gstin : string) :
  ¬ gstin_on_portal portal_df gstin →
  close_gstin unmatched_company portal_df buffer_size st gstin = inr st.
Proof.
  unfold gstin_on_portal. intros H.
  apply (proj2 (filter_nil_not_Exists _ _)) in H.
  unfold close_gstin. by rewrite H.
Qed.

Lemma close_gstin_raise (unmatched_company : list Company.row)
  (portal_df : list Portal.row) (buffer_size : Z) (st : close_state)
  (gstin : string) :
  gstin ∈ map Company.gstin unmatched_company →
  gstin_on_portal portal_df gstin →
  close_gstin unmatched_company portal_df buffer_size st gstin
  = inl (KeyError "Invoice Date_x").
Proof.
  unfold gstin_on_portal.
  intros (c & -> & Hc)%list_elem_of_fmap HP. unfold close_gstin.
  destruct (filter _ portal_df) as [|p ps] eqn:Hps.
  { by apply (proj1 (filter_nil_not_Exists _ _)) in Hps. }
  destruct (filter _ unmatched_company) as [|c' cs] eqn:Hcs.
  { by destruct (filter_nil_not_elem_of _ _ c Hcs eq_refl). }
  cbn [for_each]. unfold close_row at 1.
  by rewrite close_matches_raise.
Qed.

Lemma has_candidate_unique (unmatched_company : list Company.row)
  (portal_df : list Portal.row) :
  Exists (gstin_on_portal portal_df)
    (unique (map Company.gstin unmatched_company))
  ↔ has_candidate unmatched_company portal_df.
Proof.
  unfold has_candidate. rewrite !Exists_exists. split.
  - intros (g & Hg & HP). apply (proj1 (unique_elem _ _)) in Hg.
    apply list_elem_of_fmap in Hg as (c & -> & Hc). eauto.
  - intros (c & Hc & HP). exists (Company.gstin c). split; [|done].
    apply unique_elem, list_elem_of_fmap. eauto.
Qed.

Lemma second_pass (unmatched_company : list Company.row)
  (portal_df : list Portal.row) (buffer_size : Z) (st : close_state) :
  for_each (close_gstin unmatched_company portal_df buffer_size)
    (unique (map Company.gstin unmatched_company)) st
  = if decide (has_candidate unmatched_company portal_df)
    then inl (KeyError "Invoice Date_x") else inr st.
Proof.
  rewrite (for_each_skip_or_raise (gstin_on_portal portal_df)
             (KeyError "Invoice Date_x")).
  - destruct (decide (has_candidate _ _)) as [H|H].
    + rewrite decide_True; [done|]. by apply has_candidate_unique.
    + rewrite decide_False; [done|]. by rewrite has_candidate_unique.
  - intros s g Hg. apply (proj1 (unique_elem _ _)) in Hg.
    by apply close_gstin_raise.
  - intros s g _. apply close_gstin_skip.
Qed.

(** ** The outcome of a call *)

Lemma exact_pairs_prepared (company_df : list Company.row)
  (portal_df : list Portal.row) :
  Forall prepared_company company_df →
  Forall (fun row => prepared_company (fst row))
    (exact_pairs company_df portal_df).
Proof.
  rewrite !Forall_forall. intros HC [c p] Hin.
  apply exact_pairs_elem in Hin as (Hc & _). by apply HC.
Qed.

Lemma not_isin_prepared (M : gset string) (company_df : list Company.row) :
  Forall prepared_company company_df →
  Forall prepared_company (not_isin M company_df).
Proof.
  rewrite !Forall_forall. intros HC c Hin.
  apply list_elem_of_filter in Hin as [_ Hin]. by apply HC.
Qed.

Lemma match_body_prepared (company_df : list Company.row)
  (portal_df : list Portal.row) (buffer_size : Z) :
  Forall prepared_company company_df →
  Forall prepared_portal portal_df →
  match_body company_df portal_df buffer_size
  = if decide (reaches_comparison company_df portal_df buffer_size)
    then inl (KeyError "Invoice Date_x")
    else inr (map exact_record_of (exact_pairs company_df portal_df),
              map unmatched_record_of
                (unmatched_after_pass1 company_df portal_df)).
Proof.
  intros HC HP. unfold match_body.
  rewrite merge_prepared by done. cbn [bind].
  rewrite exact_records_pure by by apply exact_pairs_prepared.
  cbn [bind]. unfold reaches_comparison, unmatched_after_pass1,
    pass1_matched_invoices.
  case_bool_decide as Ht.
  - rewrite second_pass.
    destruct (decide (has_candidate _ _)) as [Hc|Hc].
    + by rewrite decide_True.
    + rewrite decide_False by tauto. cbn [bind fst snd].
      rewrite unmatched_records_pure by by apply not_isin_prepared.
      cbn [bind ret]. by rewrite app_nil_r.
  - rewrite decide_False by tauto. cbn [bind ret fst snd].
    rewrite unmatched_records_pure by by apply not_isin_prepared.
    cbn [bind ret]. by rewrite app_nil_r.
Qed.

Lemma matched_invoices_of_prep (rows : list (Company.row * Portal.row)) :
  matched_invoices_of
    (map (fun row => (prep_company (fst row), prep_portal (snd row))) rows)
  = matched_invoices_of rows.
Proof. unfold matched_invoices_of. by rewrite map_map. Qed.

Lemma not_isin_prep (M : gset string) (company_df : list Company.row) :
  not_isin M (map prep_company company_df)
  = map prep_company (not_isin M company_df).
Proof. unfold not_isin. by rewrite filter_map. Qed.

Lemma has_candidate_prep (unmatched_company : list Company.row)
  (portal_df : list Portal.row) :
  has_candidate (map prep_company unmatched_company)
    (map prep_portal portal_df)
  ↔ has_candidate unmatched_company portal_df.
Proof.
  unfold has_candidate. rewrite !Exists_exists. split.
  - intros (c' & (c & -> & Hc)%list_elem_of_fmap & HP).
    exists c. split; [done|]. apply Exists_exists in HP as (p' & Hp' & Hg).
    apply list_elem_of_fmap in Hp' as (p & -> & Hp).
    apply Exists_exists. eauto.
  - intros (c & Hc & HP). exists (prep_company c).
    split; [by apply list_elem_of_fmap_2|].
    apply Exists_exists in HP as (p & Hp & Hg).
    apply Exists_exists. exists (prep_portal p).
    split; [by apply list_elem_of_fmap_2|done].
Qed.

Lemma unmatched_after_pass1_prep (company_df : list Company.row)
  (portal_df : list Portal.row) :
  unmatched_after_pass1 (map prep_company company_df)
    (map prep_portal portal_df)
  = map prep_company (unmatched_after_pass1 company_df portal_df).
Proof.
  unfold unmatched_after_pass1, pass1_matched_invoices.
  by rewrite exact_pairs_prep, matched_invoices_of_prep, not_isin_prep.
Qed.

(** What a call returns or raises, read off the tables it was given. *)
Lemma match_invoices_outcome (company_df : list Company.row)
  (portal_df : list Portal.row) (buffer_size : Z) :
  snd (match_invoices company_df portal_df buffer_size)
  = if decide (reaches_comparison company_df portal_df buffer_size)
    then inl (KeyError "Invoice Date_x")
    else inr (map exact_record_of (exact_pairs company_df portal_df),
              map unmatched_record_of
                (unmatched_after_pass1 company_df portal_df)).
Proof.
  unfold match_invoices. cbn [snd].
  rewrite match_body_prepared
    by (apply assign_company_prepared || apply assign_portal_prepared).
  rewrite assign_company_map, assign_portal_map.
  rewrite exact_pairs_prep, unmatched_after_pass1_prep, !map_map.
  destruct (decide (reaches_comparison company_df _ _)) as [[Ht Hc]|Hn].
  - rewrite decide_True; [done|]. split; [done|].
    rewrite unmatched_after_pass1_prep.
    by apply (proj2 (has_candidate_prep _ _)).
  - rewrite decide_False; [done|]. intros [Ht Hc]. apply Hn.
    split; [done|]. rewrite unmatched_after_pass1_prep in Hc.
    by apply (proj1 (has_candidate_prep _ _)) in Hc.
Qed.

(** ** What the returned records say

    The bookkeeping of the second pass, as an invariant of its loops: it
    holds of every state the loops can reach, whatever the comparison
    selects. *)

Section SecondPassInvariant.
Variable unmatched_company : list Company.row.
Variable portal_df : list Portal.row.
Variable matched_invoices : gset string.
Variable buffer_size : Z.
Hypothesis unmatched_prepared : Forall prepared_company unmatched_company.

Let Inv := close_inv unmatched_company portal_df matched_invoices.

Lemma close_inv_init : Inv ([], matched_invoices).
Proof.
  split; simpl; [constructor|]. intros x. split; [by left|].
  intros [?|(m & Hm & _)]; [done|]. by apply elem_of_nil in Hm.
Qed.

Lemma close_row_inv (gstin : string) (portal_subset : list Portal.row)
  (st st' : close_state) (company_row : Company.row) :
  company_row ∈ unmatched_company →
  Company.gstin company_row = gstin →
  (∀ p, p ∈ portal_subset → p ∈ portal_df ∧ Portal.gstin p = gstin) →
  Inv st →
  close_row gstin portal_subset buffer_size st company_row = inr st' →
  Inv st'.
Proof.
  intros Hc Hg Hsub [Hrec Hset] Hrun. unfold close_row in Hrun.
  apply bind_inr in Hrun as (sel & Hsel & Hrun).
  apply close_matches_sub in Hsel.
  destruct sel as [|portal_row sel]; simpl in Hrun; [by simplify_eq|].
  apply bind_inr in Hrun as (date_str & Hd & Hrun).
  simpl in Hrun. simplify_eq.
  destruct (proj1 (Forall_forall _ _) unmatched_prepared _ Hc) as [_ Hds].
  rewrite Hds in Hd. simpl in Hd. simplify_eq.
  destruct (Hsub portal_row) as [Hp Hpg]; [apply Hsel; by left|].
  split; cbn [fst snd].
  - apply Forall_app. split; [done|]. apply Forall_singleton.
    split; [done|]. split; [done|].
    exists company_row, portal_row. by repeat split.
  - intros x. rewrite elem_of_union, elem_of_singleton, Hset.
    setoid_rewrite elem_of_app. setoid_rewrite list_elem_of_singleton.
    split.
    + intros [[?|(m & Hm & Hx)]| ->]; [by left|right; eauto|].
      right. eexists. split; [by right|done].
    + intros [?|(m & [Hm| ->] & Hx)]; [by left; left|left; right; eauto|].
      by right.
Qed.

Lemma close_gstin_inv (st st' : close_state) (gstin : string) :
  Inv st →
  close_gstin unmatched_company portal_df buffer_size st gstin = inr st' →
  Inv st'.
Proof.
  intros Hst. unfold close_gstin.
  destruct (filter _ portal_df) as [|p ps] eqn:Hps.
  { intros H. simpl in H. by simplify_eq. }
  apply for_each_invariant; [|done].
  intros s c s' Hc Hs. apply list_elem_of_filter in Hc as [Hg Hc].
  apply close_row_inv; [done..| |done].
  intros q Hq. rewrite <- Hps in Hq.
  apply list_elem_of_filter in Hq as [? ?]. done.
Qed.

Lemma close_pass_inv (gstins : list string) (st : close_state) :
  for_each (close_gstin unmatched_company portal_df buffer_size) gstins
    ([], matched_invoices) = inr st →
  Inv st.
Proof.
  apply for_each_invariant; [|apply close_inv_init].
  intros s g s' _. apply close_gstin_inv.
Qed.

End SecondPassInvariant.

Lemma close_inv_prep (unmatched_company : list Company.row)
  (portal_df : list Portal.row) (M : gset string) (st : close_state) :
  close_inv (map prep_company unmatched_company) (map prep_portal portal_df)
    M st →
  close_inv unmatched_company portal_df M st.
Proof.
  intros [Hrec Hset]. split; [|done].
  eapply Forall_impl; [exact Hrec|].
  intros m (Hs & Hd & c' & p' & Hc' & Hp' & Hg & Hdesc & Hpair).
  apply list_elem_of_fmap in Hc' as (c & -> & Hc).
  apply list_elem_of_fmap in Hp' as (p & -> & Hp).
  split; [done|]. split; [done|]. by exists c, p.
Qed.

Lemma match_body_returns (company_df : list Company.row)
  (portal_df : list Portal.row) (buffer_size : Z)
  (matched : list Matched.record) (unmatched : list Unmatched.record) :
  Forall prepared_company company_df →
  Forall prepared_portal portal_df →
  match_body company_df portal_df buffer_size = inr (matched, unmatched) →
  ∃ st : close_state,
    close_inv (unmatched_after_pass1 company_df portal_df) portal_df
      (pass1_matched_invoices company_df portal_df) st
    ∧ matched
      = (map exact_record_of (exact_pairs company_df portal_df) ++ fst st)%list
    ∧ unmatched = map unmatched_record_of (not_isin (snd st) company_df).
Proof.
  intros HC HP. unfold match_body.
  rewrite merge_prepared by done. cbn [bind].
  rewrite exact_records_pure by by apply exact_pairs_prepared.
  cbn [bind]. intros (st & Hst & Hrun)%bind_inr.
  rewrite unmatched_records_pure in Hrun by by apply not_isin_prepared.
  simpl in Hrun. simplify_eq. exists st. split; [|done].
  case_bool_decide.
  - eapply close_pass_inv; [|exact Hst]. by apply not_isin_prepared.
  - simpl in Hst. simplify_eq. apply close_inv_init.
Qed.

(** A call that returns: the matched list is the exact records of the
    join followed by the close records of the second pass, and the
    unmatched list is made of the company rows whose invoice number is not
    in the final set [matched_invoices]. *)
Lemma match_invoices_returns (company_df : list Company.row)
  (portal_df : list Portal.row) (buffer_size : Z)
  (matched : list Matched.record) (unmatched : list Unmatched.record) :
  snd (match_invoices company_df portal_df buffer_size)
  = inr (matched, unmatched) →
  ∃ st : close_state,
    close_inv (unmatched_after_pass1 company_df portal_df) portal_df
      (pass1_matched_invoices company_df portal_df) st
    ∧ matched
      = (map exact_record_of (exact_pairs company_df portal_df) ++ fst st)%list
    ∧ unmatched = map unmatched_record_of (not_isin (snd st) company_df).
Proof.
  unfold match_invoices. cbn [snd]. intros Hrun.
  apply match_body_returns in Hrun as (st & Hinv & -> & ->);
    [|apply assign_company_prepared|apply assign_portal_prepared].
  rewrite assign_company_map, assign_portal_map in *.
  rewrite unmatched_after_pass1_prep in Hinv.
  unfold pass1_matched_invoices in Hinv.
  rewrite exact_pairs_prep, matched_invoices_of_prep in Hinv.
  apply close_inv_prep in Hinv.
  exists st. split; [done|].
  by rewrite exact_pairs_prep, not_isin_prep, !map_map.
Qed.

Lemma pass1_matched_invoices_elem (company_df : list Company.row)
  (portal_df : list Portal.row) (x : string) :
  x ∈ pass1_matched_invoices company_df portal_df
  ↔ ∃ c p, c ∈ company_df ∧ p ∈ portal_df ∧ same_key c p
           ∧ Company.invoice_no c = x.
Proof.
  unfold pass1_matched_invoices, matched_invoices_of.
  rewrite elem_of_list_to_set, list_elem_of_fmap. split.
  - intros ([c p] & -> & Hin). apply exact_pairs_elem in Hin as (?&?&?).
    by exists c, p.
  - intros (c & p & Hc & Hp & Hk & <-). exists (c, p). split; [done|].
    by apply exact_pairs_elem.
Qed.

Lemma NoDup_map_eq {A B : Type} (f : A -> B) (l : list A) (x y : A) :
  NoDup (map f l) → x ∈ l → y ∈ l → f x = f y → x = y.
Proof.
  induction l as [|a l IH]; simpl; intros Hnd Hx Hy Hf.
  - by apply elem_of_nil in Hx.
  - apply NoDup_cons in Hnd as [Ha Hnd].
    apply elem_of_cons in Hx as [->|Hx], Hy as [->|Hy]; [done| | |by apply IH].
    + destruct Ha. rewrite Hf. by apply list_elem_of_fmap_2.
    + destruct Ha. rewrite <- Hf. by apply list_elem_of_fmap_2.
Qed.

Lemma matched_record_cases (company_df : list Company.row)
  (portal_df : list Portal.row) (st : close_state) (m : Matched.record) :
  close_inv (unmatched_after_pass1 company_df portal_df) portal_df
    (pass1_matched_invoices company_df portal_df) st →
  m ∈ (map exact_record_of (exact_pairs company_df portal_df) ++ fst st)%list →
  (exact_record_ok company_df portal_df m
   ∧ Matched.Invoice_No m ∈ pass1_matched_invoices company_df portal_df)
  ∨ (close_record_ok (unmatched_after_pass1 company_df portal_df) portal_df m
     ∧ m ∈ fst st).
Proof.
  intros [Hrec _] [Hm|Hm]%elem_of_app.
  - left. apply list_elem_of_fmap in Hm as ([c p] & -> & Hin).
    apply exact_pairs_elem in Hin as (Hc & Hp & Hk).
    split; [split; [done|by exists c, p]|].
    apply pass1_matched_invoices_elem. by exists c, p.
  - right. split; [|done]. by apply (proj1 (Forall_forall _ _) Hrec).
Qed.

(** ** Sample runs *)

Example clean_inv_slash : clean_invoice "INV/001" = "INV001".
Proof. reflexivity. Qed.

Example clean_inv_runs : clean_invoice " A-/-b 0..9 " = "Ab09".
Proof. reflexivity. Qed.

Example match_exact_example :
  match_invoices [company_inv001] [portal_inv001] 0
  = (([prep_company company_inv001], [prep_portal portal_inv001]),
     inr ([matched_inv001], [])).
Proof. vm_compute. reflexivity. Qed.


Example match_duplicate_example :
  snd (match_invoices [company_inv001; company_other_inv001] [portal_inv001] 0)
  = inr ([matched_inv001], []).
Proof. vm_compute. reflexivity. Qed.

(** ** The claims *)

(** Settles a decidable closed proposition by evaluating its decision. *)
Ltac by_computation := apply (bool_decide_unpack _); vm_compute; exact I.

Lemma reaches_comparison_raises (company_df : list Company.row)
  (portal_df : list Portal.row) (buffer_size : Z) :
  reaches_comparison company_df portal_df buffer_size →
  snd (match_invoices company_df portal_df buffer_size)
  = inl (KeyError "Invoice Date_x").
Proof. intros H. by rewrite match_invoices_outcome, decide_True. Qed.

Lemma no_comparison_returns (company_df : list Company.row)
  (portal_df : list Portal.row) (buffer_size : Z) :
  ¬ reaches_comparison company_df portal_df buffer_size →
  snd (match_invoices company_df portal_df buffer_size)
  = inr (map exact_record_of (exact_pairs company_df portal_df),
         map unmatched_record_of (unmatched_after_pass1 company_df portal_df)).
Proof. intros H. by rewrite match_invoices_outcome, decide_False. Qed.

Lemma candidate_reaches_comparison (company_df : list Company.row)
  (portal_df : list Portal.row) (buffer_size : Z)
  (c : Company.row) (p : Portal.row) :
  0 < buffer_size → c ∈ company_df → p ∈ portal_df →
  Company.invoice_no c ∉ pass1_matched_invoices company_df portal_df →
  Portal.gstin p = Company.gstin c →
  reaches_comparison company_df portal_df buffer_size.
Proof.
  intros Ht Hc Hp Hn Hg. split; [done|].
  apply Exists_exists. exists c. split.
  - by apply list_elem_of_filter.
  - apply Exists_exists. by exists p.
Qed.

(** C1 (the code departs from the claim).  The claim: with a positive
    tolerance, a company record that the first pass left unmatched is
    classified Close when a portal record of its GSTIN has the same invoice
    date and a total within the tolerance.  The code: under exactly these
    conditions the call raises [KeyError 'Invoice Date_x'] and classifies
    nothing, because the comparison reads a column that the portal frame
    does not have.  (The exception does not depend on the date and the
    totals: [candidate_reaches_comparison] and [reaches_comparison_raises]
    give it for any portal record of the GSTIN.) *)
Theorem close_candidate_raises_KeyError (company_df : list Company.row)
  (portal_df : list Portal.row) (buffer_size : Z)
  (c : Company.row) (p : Portal.row) :
  0 < buffer_size →
  c ∈ company_df → p ∈ portal_df →
  Company.invoice_no c ∉ pass1_matched_invoices company_df portal_df →
  Portal.gstin p = Company.gstin c →
  Portal.invoice_date p = Company.invoice_date c →
  Z.abs (Portal.Total p - Company.Total c) <= buffer_size →
  snd (match_invoices company_df portal_df buffer_size)
  = inl (KeyError "Invoice Date_x").
Proof.
  intros Ht Hc Hp Hn Hg _ _.
  apply reaches_comparison_raises.
  by apply (candidate_reaches_comparison _ _ _ c p).
Qed.

Lemma close_candidate_raises_KeyError_witness :
  snd (match_invoices [company_inv001] [portal_inv002] 10)
  = inl (KeyError "Invoice Date_x").
Proof.
  apply (close_candidate_raises_KeyError _ _ 10 company_inv001 portal_inv002).
  - reflexivity.
  - by left.
  - by left.
  - by_computation.
  - reflexivity.
  - reflexivity.
  - vm_compute. discriminate.
Defined.

Lemma nonpositive_no_comparison (company_df : list Company.row)
  (portal_df : list Portal.row) (buffer_size : Z) :
  buffer_size <= 0 → ¬ reaches_comparison company_df portal_df buffer_size.
Proof. intros Ht [Hpos _]. lia. Qed.

(** C3 (amended).  A negative tolerance is not rejected: no exception is
    raised, the second pass is skipped, and the call returns the exact
    matches of the first pass together with the company records that the
    first pass left unmatched. *)
Theorem negative_tolerance_runs_first_pass_only
  (company_df : list Company.row) (portal_df : list Portal.row)
  (buffer_size : Z) :
  buffer_size < 0 →
  snd (match_invoices company_df portal_df buffer_size)
  = inr (map exact_record_of (exact_pairs company_df portal_df),
         map unmatched_record_of (unmatched_after_pass1 company_df portal_df))
  ∧ ¬ rejected (snd (match_invoices company_df portal_df buffer_size)).
Proof.
  intros Ht.
  assert (Hle : buffer_size <= 0) by lia.
  assert (Hret := no_comparison_returns company_df portal_df buffer_size
                    (nonpositive_no_comparison _ _ _ Hle)).
  split; [done|]. rewrite Hret. intros [e He]. discriminate.
Qed.

Lemma negative_tolerance_runs_first_pass_only_witness :
  snd (match_invoices [company_inv001; company_inv007] [portal_inv001] (-1))
  = inr ([matched_inv001], [unmatched_inv007]).
Proof.
  exact (proj1 (negative_tolerance_runs_first_pass_only
                  [company_inv001; company_inv007] [portal_inv001] (-1)
                  eq_refl)).
Defined.

(** C3 as stated fails: with tolerance -1 the call returns a result. *)
Lemma negative_tolerance_not_rejected :
  snd (match_invoices [company_inv001; company_inv007] [portal_inv001] (-1))
  = inr ([matched_inv001], [unmatched_inv007])
  ∧ ¬ rejected
        (snd (match_invoices [company_inv001; company_inv007]
                [portal_inv001] (-1))).
Proof.
  split; [vm_compute; reflexivity|].
  intros [e He]. vm_compute in He. discriminate.
Qed.

(** C5 (the code departs from the claim).  The claim: a company record
    matched at tolerance [t] is matched at every larger tolerance.  The
    code: when the first pass matches [c] and leaves unmatched some [c']
    whose GSTIN is on the portal, the call with a tolerance that is not
    positive returns the exact match of [c], and the call with any positive
    tolerance raises [KeyError 'Invoice Date_x'] and matches nothing. *)
Theorem raising_tolerance_loses_matches (company_df : list Company.row)
  (portal_df : list Portal.row) (t t' : Z)
  (c c' : Company.row) (p p' : Portal.row) :
  t <= 0 → 0 < t' →
  c ∈ company_df → p ∈ portal_df → same_key c p →
  c' ∈ company_df → p' ∈ portal_df →
  Company.invoice_no c' ∉ pass1_matched_invoices company_df portal_df →
  Portal.gstin p' = Company.gstin c' →
  (∃ matched unmatched,
     snd (match_invoices company_df portal_df t) = inr (matched, unmatched)
     ∧ exact_record_of (c, p) ∈ matched)
  ∧ snd (match_invoices company_df portal_df t')
    = inl (KeyError "Invoice Date_x").
Proof.
  intros Ht Ht' Hc Hp Hk Hc' Hp' Hn Hg. split.
  - eexists _, _. split.
    + by apply no_comparison_returns, nonpositive_no_comparison.
    + apply (list_elem_of_fmap_2 exact_record_of).
      by apply exact_pairs_elem.
  - apply reaches_comparison_raises.
    by apply (candidate_reaches_comparison _ _ _ c' p').
Qed.

Lemma raising_tolerance_loses_matches_witness :
  (∃ matched unmatched,
     snd (match_invoices [company_inv001; company_inv007] [portal_inv001] 0)
     = inr (matched, unmatched)
     ∧ exact_record_of (company_inv001, portal_inv001) ∈ matched)
  ∧ snd (match_invoices [company_inv001; company_inv007] [portal_inv001] 10)
    = inl (KeyError "Invoice Date_x").
Proof.
  apply (raising_tolerance_loses_matches _ _ 0 10
           company_inv001 company_inv007 portal_inv001 portal_inv001).
  - vm_compute. discriminate.
  - reflexivity.
  - by left.
  - by left.
  - split; reflexivity.
  - right. by left.
  - by left.
  - by_computation.
  - reflexivity.
Defined.

(** C10.  For every tolerance that is zero or negative the call does what
    the call with tolerance 0 does, to the frames and in its result, and it
    returns: no exception is raised. *)
Theorem nonpositive_tolerance_same_as_zero (company_df : list Company.row)
  (portal_df : list Portal.row) (buffer_size : Z) :
  buffer_size <= 0 →
  match_invoices company_df portal_df buffer_size
  = match_invoices company_df portal_df 0
  ∧ ∃ out, snd (match_invoices company_df portal_df buffer_size) = inr out.
Proof.
  intros Ht.
  assert (H1 := no_comparison_returns company_df portal_df buffer_size
                  (nonpositive_no_comparison _ _ _ Ht)).
  assert (H0 := no_comparison_returns company_df portal_df 0
                  (nonpositive_no_comparison _ _ _ (Z.le_refl 0))).
  split; [|by eexists].
  rewrite <- H0 in H1. unfold match_invoices in *. cbn [snd] in H1.
  by rewrite H1.
Qed.

Lemma nonpositive_tolerance_same_as_zero_witness :
  match_invoices [company_inv001; company_inv007] [portal_inv001] (-5)
  = match_invoices [company_inv001; company_inv007] [portal_inv001] 0
  ∧ ∃ out,
      snd (match_invoices [company_inv001; company_inv007] [portal_inv001]
             (-5)) = inr out.
Proof.
  apply nonpositive_tolerance_same_as_zero. vm_compute. discriminate.
Defined.

Lemma unmatched_after_pass1_sub (company_df : list Company.row)
  (portal_df : list Portal.row) (c : Company.row) :
  c ∈ unmatched_after_pass1 company_df portal_df →
  c ∈ company_df
  ∧ Company.invoice_no c ∉ pass1_matched_invoices company_df portal_df.
Proof. intros [? ?]%list_elem_of_filter. done. Qed.

(** C6.  In every matched record, Exact or Close, the reported Difference is
    the Portal Total minus the Firm Total, and these are the [Total] of a
    portal row and of a company row of the input: the Difference is the
    portal total minus the company total. *)
Theorem difference_is_portal_minus_company (company_df : list Company.row)
  (portal_df : list Portal.row) (buffer_size : Z)
  (matched : list Matched.record) (unmatched : list Unmatched.record) :
  snd (match_invoices company_df portal_df buffer_size)
  = inr (matched, unmatched) →
  ∀ m, m ∈ matched →
    Matched.Difference m = Matched.Portal_Total m - Matched.Firm_Total m
    ∧ ∃ c p, c ∈ company_df ∧ p ∈ portal_df
             ∧ Matched.Firm_Total m = Company.Total c
             ∧ Matched.Portal_Total m = Portal.Total p
             ∧ Matched.Difference m = Portal.Total p - Company.Total c.
Proof.
  intros (st & Hinv & -> & _)%match_invoices_returns m Hm.
  destruct (matched_record_cases _ _ _ _ Hinv Hm)
    as [[[_ (c & p & Hc & Hp & _ & ->)] _]
       |[(_ & Hd & c & p & Hc & Hp & _ & Hdesc & Hpair) _]].
  - split; [done|]. by exists c, p.
  - split; [done|]. exists c, p.
    apply unmatched_after_pass1_sub in Hc as [Hc _].
    destruct Hdesc as (_ & _ & _ & _ & _ & Hf), Hpair as [Hpt _].
    rewrite <- Hpt, <- Hf. done.
Qed.

Lemma difference_is_portal_minus_company_witness :
  Matched.Difference matched_inv001
  = Matched.Portal_Total matched_inv001 - Matched.Firm_Total matched_inv001
  ∧ ∃ c p, c ∈ [company_inv001] ∧ p ∈ [portal_inv001]
           ∧ Matched.Firm_Total matched_inv001 = Company.Total c
           ∧ Matched.Portal_Total matched_inv001 = Portal.Total p
           ∧ Matched.Difference matched_inv001
             = Portal.Total p - Company.Total c.
Proof.
  apply (difference_is_portal_minus_company
           [company_inv001] [portal_inv001] 0 [matched_inv001] []).
  - vm_compute. reflexivity.
  - by left.
Defined.

(** C9.  Whenever a call returns, the invoice number of every matched
    record, Exact or Close, is absent from the unmatched list: every
    company record carrying that number is left out of it.  So a company
    record that shares its invoice number with a matched record of another
    supplier appears in neither list; the second part exhibits one. *)
Theorem matched_invoice_no_leaves_unmatched :
  (∀ (company_df : list Company.row) (portal_df : list Portal.row)
     (buffer_size : Z) (matched : list Matched.record)
     (unmatched : list Unmatched.record),
     snd (match_invoices company_df portal_df buffer_size)
     = inr (matched, unmatched) →
     ∀ m, m ∈ matched →
       (∀ u, u ∈ unmatched →
             Unmatched.Invoice_No u ≠ Matched.Invoice_No m)
       ∧ (∀ c, c ∈ company_df →
               Company.invoice_no c = Matched.Invoice_No m →
               unmatched_record_of c ∉ unmatched))
  ∧ (∃ (company_df : list Company.row) (portal_df : list Portal.row)
       (buffer_size : Z) (matched : list Matched.record)
       (unmatched : list Unmatched.record) (c : Company.row),
       snd (match_invoices company_df portal_df buffer_size)
       = inr (matched, unmatched)
       ∧ c ∈ company_df
       ∧ (∀ m, m ∈ matched → ¬ describes m c)
       ∧ unmatched_record_of c ∉ unmatched).
Proof.
  split.
  - intros company_df portal_df buffer_size matched unmatched
      (st & Hinv & -> & ->)%match_invoices_returns m Hm.
    assert (Hin : Matched.Invoice_No m ∈ snd st).
    { destruct Hinv as [Hrec Hset].
      destruct (matched_record_cases _ _ _ _ (conj Hrec Hset) Hm)
        as [[_ Hm0]|[_ Hm1]]; apply Hset; [by left|right; eauto]. }
    assert (Hu : ∀ u, u ∈ map unmatched_record_of
                              (not_isin (snd st) company_df) →
                      Unmatched.Invoice_No u ≠ Matched.Invoice_No m).
    { intros u (c & -> & Hc)%list_elem_of_fmap Heq.
      apply list_elem_of_filter in Hc as [Hn _]. simpl in Heq.
      by rewrite Heq in Hn. }
    split; [done|]. intros c _ Heq Hc. by apply (Hu _ Hc).
  - exists [company_inv001; company_other_inv001], [portal_inv001], 0,
      [matched_inv001], [], company_other_inv001.
    split; [vm_compute; reflexivity|]. split; [right; by left|]. split.
    + intros m ->%list_elem_of_singleton (Hg & _). discriminate Hg.
    + apply not_elem_of_nil.
Qed.

Lemma matched_invoice_no_leaves_unmatched_witness :
  Unmatched.Invoice_No unmatched_inv007 ≠ Matched.Invoice_No matched_inv001.
Proof.
  apply (proj1 matched_invoice_no_leaves_unmatched
           [company_inv001; company_inv007] [portal_inv001] 0
           [matched_inv001] [unmatched_inv007]).
  - vm_compute. reflexivity.
  - by left.
  - by left.
Defined.

(** *** The three buckets *)

(** C2 as stated fails: of two company records that carry the same invoice
    number, the one that has no counterpart on the portal is in no bucket. *)
Lemma duplicate_invoice_no_in_no_bucket :
  snd (match_invoices [company_inv001; company_other_inv001]
         [portal_inv001] 0)
  = inr ([matched_inv001], [])
  ∧ company_other_inv001 ∈ [company_inv001; company_other_inv001]
  ∧ ¬ classified_once [matched_inv001] [] company_other_inv001.
Proof.
  split; [vm_compute; reflexivity|]. split; [right; by left|].
  intros [[(m & Hm & _ & Hg & _)|[(m & Hm & _ & Hg & _)|Hu]] _].
  - apply list_elem_of_singleton in Hm as ->. discriminate Hg.
  - apply list_elem_of_singleton in Hm as ->. discriminate Hg.
  - by apply elem_of_nil in Hu.
Qed.

(** C2 (amended).  When the invoice numbers of the company table are
    pairwise distinct and the call returns, every company record is in
    exactly one of the buckets Exact, Close and Unmatched, and every
    returned record belongs to a company record of the input. *)
Theorem distinct_invoice_numbers_partition (company_df : list Company.row)
  (portal_df : list Portal.row) (buffer_size : Z)
  (matched : list Matched.record) (unmatched : list Unmatched.record) :
  NoDup (map Company.invoice_no company_df) →
  snd (match_invoices company_df portal_df buffer_size)
  = inr (matched, unmatched) →
  (∀ c, c ∈ company_df → classified_once matched unmatched c)
  ∧ (∀ m, m ∈ matched → ∃ c, c ∈ company_df ∧ describes m c)
  ∧ (∀ u, u ∈ unmatched → ∃ c, c ∈ company_df ∧ u = unmatched_record_of c).
Proof.
  intros Hnd (st & Hinv & -> & ->)%match_invoices_returns.
  pose proof (fun m => matched_record_cases company_df portal_df st m Hinv)
    as Hcases.
  destruct Hinv as [Hrec Hset].
  set (M0 := pass1_matched_invoices company_df portal_df) in *.
  set (matched :=
         (map exact_record_of (exact_pairs company_df portal_df) ++ fst st)%list)
    in *.
  (* what membership in each bucket says about the invoice number *)
  assert (Hexact : ∀ c, exact_matched matched c → Company.invoice_no c ∈ M0).
  { intros c (m & Hm & Hs & Hd).
    destruct (Hcases m Hm) as [[_ Hin]|[(Hs' & _) _]]; [|congruence].
    destruct Hd as (_ & _ & _ & <- & _). done. }
  assert (Hclose : ∀ c, close_matched matched c →
                        (Company.invoice_no c ∉ M0)
                        ∧ Company.invoice_no c ∈ snd st).
  { intros c (m & Hm & Hs & Hd).
    destruct (Hcases m Hm) as [[[Hs' _] _]|[(_ & _ & Hex) Hm1]]; [congruence|].
    destruct Hex as (c1 & p1 & Hc1 & _ & _ & Hd1 & _).
    apply unmatched_after_pass1_sub in Hc1 as [_ Hn1].
    destruct Hd as (_ & _ & _ & Hi & _), Hd1 as (_ & _ & _ & Hi1 & _).
    rewrite <- Hi, Hi1. split; [done|].
    apply Hset. right. exists m. by rewrite Hi1. }
  assert (Hunm : ∀ c, is_unmatched
                        (map unmatched_record_of
                           (not_isin (snd st) company_df)) c →
                      Company.invoice_no c ∉ snd st).
  { intros c (c1 & Heq & Hc1)%list_elem_of_fmap.
    apply list_elem_of_filter in Hc1 as [Hn1 _].
    assert (Hi : Company.invoice_no c = Company.invoice_no c1)
      by exact (f_equal Unmatched.Invoice_No Heq).
    by rewrite Hi. }
  assert (Hsub : ∀ x, x ∈ M0 → x ∈ snd st) by (intros x Hx; apply Hset; by left).
  split; [|split].
  - intros c Hc. split; [|split; [|split]].
    + destruct (decide (Company.invoice_no c ∈ M0)) as [H0|H0].
      * left. apply pass1_matched_invoices_elem in H0
          as (c1 & p1 & Hc1 & Hp1 & Hk & Hi).
        assert (c1 = c) as ->.
        { by apply (NoDup_map_eq _ _ _ _ Hnd). }
        exists (exact_record_of (c, p1)). split; [|by repeat split].
        apply elem_of_app. left.
        apply (list_elem_of_fmap_2 exact_record_of).
        by apply exact_pairs_elem.
      * destruct (decide (Company.invoice_no c ∈ snd st)) as [H1|H1].
        -- right; left. apply Hset in H1 as [?|(m & Hm & Hi)]; [done|].
           destruct (proj1 (Forall_forall _ _) Hrec m Hm)
             as (Hs & _ & c1 & p1 & Hc1 & _ & _ & Hd & _).
           apply unmatched_after_pass1_sub in Hc1 as [Hc1 _].
           assert (c1 = c) as ->.
           { apply (NoDup_map_eq _ _ _ _ Hnd); [done..|].
             destruct Hd as (_ & _ & _ & <- & _). done. }
           exists m. split; [|done]. apply elem_of_app. by right.
        -- right; right. apply (list_elem_of_fmap_2 unmatched_record_of).
           by apply list_elem_of_filter.
    + intros [He Hc']. apply Hexact in He. by apply Hclose in Hc' as [? _].
    + intros [He Hu]. apply Hexact, Hsub in He. by apply Hunm in Hu.
    + intros [Hc' Hu]. apply Hclose in Hc' as [_ ?]. by apply Hunm in Hu.
  - intros m Hm.
    destruct (Hcases m Hm)
      as [[[_ (c & p & Hc & _ & _ & ->)] _]
         |[(_ & _ & c & p & Hc & _ & _ & Hd & _) _]].
    + exists c. by repeat split.
    + apply unmatched_after_pass1_sub in Hc as [Hc _]. by exists c.
  - intros u (c & -> & Hc)%list_elem_of_fmap.
    apply list_elem_of_filter in Hc as [_ Hc]. by exists c.
Qed.

Lemma distinct_invoice_numbers_partition_witness :
  classified_once [matched_inv001] [unmatched_inv007] company_inv001
  ∧ classified_once [matched_inv001] [unmatched_inv007] company_inv007.
Proof.
  assert (Hnd : NoDup (map Company.invoice_no
                         [company_inv001; company_inv007])).
  { by_computation. }
  assert (Hrun : snd (match_invoices [company_inv001; company_inv007]
                        [portal_inv001] 0)
                 = inr ([matched_inv001], [unmatched_inv007])).
  { vm_compute. reflexivity. }
  destruct (distinct_invoice_numbers_partition _ _ _ _ _ Hnd Hrun)
    as (Hall & _).
  split; apply Hall; [by left|right; by left].
Defined.

(** *** The exact join *)

(** C4.  The join of the first pass never raises, and it pairs a company
    record with a portal record exactly when they have the same GSTIN and
    the same cleaned invoice number, the cleaned number being the raw one
    without its non-alphanumeric characters; amounts and dates are not
    looked at.  The Exact records of a call that returns are the records of
    these pairs, in the order of the join. *)
Theorem exact_match_iff_same_key (company_df : list Company.row)
  (portal_df : list Portal.row) :
  ∃ rows,
    exact_matches company_df portal_df = inr rows
    ∧ (∀ c p, c ∈ company_df → p ∈ portal_df →
              ((prep_company c, prep_portal p) ∈ rows
               ↔ same_gstin_and_cleaned_number c p))
    ∧ (∀ row, row ∈ rows →
              ∃ c p, c ∈ company_df ∧ p ∈ portal_df
                     ∧ row = (prep_company c, prep_portal p))
    ∧ (∀ buffer_size matched unmatched,
         snd (match_invoices company_df portal_df buffer_size)
         = inr (matched, unmatched) →
         filter (fun m => Matched.Match_Status m = Exact) matched
         = map exact_record_of rows).
Proof.
  exists (exact_pairs (assign_company company_df) (assign_portal portal_df)).
  split; [|split; [|split]].
  - apply merge_prepared;
      [apply assign_company_prepared|apply assign_portal_prepared].
  - intros c p Hc Hp. rewrite exact_pairs_elem.
    unfold same_gstin_and_cleaned_number. rewrite <- !clean_invoice_strip.
    rewrite assign_company_map, assign_portal_map. split.
    + by intros (_ & _ & Hk).
    + intros Hk. split; [by apply list_elem_of_fmap_2|].
      split; [by apply list_elem_of_fmap_2|done].
  - intros [c' p'] (Hc' & Hp' & _)%exact_pairs_elem.
    rewrite assign_company_map in Hc'. rewrite assign_portal_map in Hp'.
    apply list_elem_of_fmap in Hc' as (c & -> & Hc).
    apply list_elem_of_fmap in Hp' as (p & -> & Hp). by exists c, p.
  - intros buffer_size matched unmatched
      (st & [Hrec _] & -> & _)%match_invoices_returns.
    rewrite assign_company_map, assign_portal_map, exact_pairs_prep, map_map.
    rewrite filter_app.
    rewrite (proj2 (filter_nil_not_Exists _ (fst st))).
    2:{ intros (m & Hm & Hs)%Exists_exists.
        destruct (proj1 (Forall_forall _ _) Hrec m Hm) as [Hs' _].
        congruence. }
    rewrite app_nil_r.
    induction (exact_pairs company_df portal_df) as [|row l IH]; [done|].
    simpl. rewrite filter_cons, decide_True by done. by rewrite IH.
Qed.

Lemma exact_match_iff_same_key_witness :
  ∃ rows,
    exact_matches [company_inv001; company_inv007] [portal_inv001] = inr rows
    ∧ (prep_company company_inv001, prep_portal portal_inv001) ∈ rows
    ∧ ((prep_company company_inv007, prep_portal portal_inv001) ∉ rows)
    ∧ map exact_record_of rows = [matched_inv001].
Proof.
  destruct (exact_match_iff_same_key [company_inv001; company_inv007]
              [portal_inv001]) as (rows & Hrows & Hiff & _ & Hout).
  exists rows. split; [done|]. split; [|split].
  - apply Hiff; [by left|by left|]. split; reflexivity.
  - intros Hin. apply Hiff in Hin as [_ Hk]; [|right; by left|by left].
    vm_compute in Hk. discriminate.
  - rewrite <- (Hout 0 [matched_inv001] [unmatched_inv007]); [done|].
    vm_compute. reflexivity.
Defined.

(** *** The frames after the call *)

(** C7 as stated fails: the call on tables fresh from the loader leaves
    both tables different from what they were. *)
Lemma match_invoices_changes_its_inputs :
  fst (fst (match_invoices [company_inv001] [portal_inv001] 0))
  ≠ [company_inv001]
  ∧ snd (fst (match_invoices [company_inv001] [portal_inv001] 0))
    ≠ [portal_inv001].
Proof. split; vm_compute; discriminate. Qed.

(** C7 (amended).  A call keeps the rows of both tables and all their
    canonical columns, and it writes, whatever the tolerance and whether it
    returns or raises, the column [Clean_Invoice] of both tables and the
    column [Date_Str] of the company table. *)
Theorem match_invoices_writes_derived_columns (company_df : list Company.row)
  (portal_df : list Portal.row) (buffer_size : Z) :
  Forall2
    (fun c c' =>
       same_company_columns c c'
       ∧ Company.Clean_Invoice c' = Some (clean_invoice (Company.invoice_no c))
       ∧ Company.Date_Str c' = Some (strftime_dmY (Company.invoice_date c)))
    company_df (fst (fst (match_invoices company_df portal_df buffer_size)))
  ∧ Forall2
      (fun p p' =>
         same_portal_columns p p'
         ∧ Portal.Clean_Invoice p' = Some (clean_invoice (Portal.invoice_no p)))
      portal_df (snd (fst (match_invoices company_df portal_df buffer_size))).
Proof.
  unfold match_invoices. cbn [fst snd].
  rewrite assign_company_map, assign_portal_map. split.
  - apply Forall2_fmap_r, Forall_Forall2_diag, Forall_forall.
    intros c _. by repeat split.
  - apply Forall2_fmap_r, Forall_Forall2_diag, Forall_forall.
    intros p _. by repeat split.
Qed.

(** *** Determinism *)

Lemma prep_company_columns (c c' : Company.row) :
  same_company_columns c c' → prep_company c' = prep_company c.
Proof.
  destruct c, c'. unfold same_company_columns, prep_company. simpl.
  intros (-> & -> & -> & -> & -> & -> & -> & -> & ->). done.
Qed.

Lemma prep_portal_columns (p p' : Portal.row) :
  same_portal_columns p p' → prep_portal p' = prep_portal p.
Proof.
  destruct p, p'. unfold same_portal_columns, prep_portal. simpl.
  intros (-> & -> & -> & -> & -> & -> & ->). done.
Qed.

Lemma assign_company_columns (company_df company_df' : list Company.row) :
  Forall2 same_company_columns company_df company_df' →
  assign_company company_df' = assign_company company_df.
Proof.
  rewrite !assign_company_map.
  induction 1 as [|c c' l l' Hc _ IH]; simpl; [done|].
  by rewrite IH, (prep_company_columns c c').
Qed.

Lemma assign_portal_columns (portal_df portal_df' : list Portal.row) :
  Forall2 same_portal_columns portal_df portal_df' →
  assign_portal portal_df' = assign_portal portal_df.
Proof.
  rewrite !assign_portal_map.
  induction 1 as [|p p' l l' Hp _ IH]; simpl; [done|].
  by rewrite IH, (prep_portal_columns p p').
Qed.

(** C8.  The outcome of a call is determined by the canonical content of
    the two tables and the tolerance: two calls on tables with the same
    rows and canonical columns give the same outcome, record for record
    and in the same order, whatever derived columns an earlier call left
    in them.  In particular a second call on the same two tables, as the
    first call left them, repeats the outcome of the first and leaves the
    tables as they are. *)
Theorem match_invoices_deterministic (company_df : list Company.row)
  (portal_df : list Portal.row) (buffer_size : Z) :
  (∀ company_df' portal_df',
     Forall2 same_company_columns company_df company_df' →
     Forall2 same_portal_columns portal_df portal_df' →
     match_invoices company_df' portal_df' buffer_size
     = match_invoices company_df portal_df buffer_size)
  ∧ (let first_call := match_invoices company_df portal_df buffer_size in
     match_invoices (fst (fst first_call)) (snd (fst first_call)) buffer_size
     = first_call).
Proof.
  split.
  - intros company_df' portal_df' Hc Hp. unfold match_invoices.
    by rewrite (assign_company_columns _ _ Hc), (assign_portal_columns _ _ Hp).
  - unfold match_invoices. cbn [fst snd].
    assert (Hc : assign_company (assign_company company_df)
                 = assign_company company_df).
    { rewrite !assign_company_map, map_map. apply map_ext. intros c.
      apply prep_company_idemp. }
    assert (Hp : assign_portal (assign_portal portal_df)
                 = assign_portal portal_df).
    { unfold assign_portal. rewrite map_map. apply map_ext. intros p.
      apply prep_portal_idemp. }
    by rewrite Hc, Hp.
Qed.

Lemma match_invoices_deterministic_witness :
  match_invoices [prep_company company_inv001] [prep_portal portal_inv002] 10
  = match_invoices [company_inv001] [portal_inv002] 10
  ∧ match_invoices [prep_company company_inv001] [prep_portal portal_inv001] 0
    = match_invoices [company_inv001] [portal_inv001] 0.
Proof.
  split.
  - apply (proj1 (match_invoices_deterministic
                    [company_inv001] [portal_inv002] 10)).
    + constructor; [by repeat split|constructor].
    + constructor; [by repeat split|constructor].
  - exact (proj2 (match_invoices_deterministic
                    [company_inv001] [portal_inv001] 0)).
Defined.

(** * Further properties of the matcher *)

(** ** [clean_invoice] *)

Lemma strip_non_alnum_all_alnum (s : string) :
  all_alnum (strip_non_alnum s) = true.
Proof.
  induction s as [|c s IH]; simpl; [done|].
  destruct (alnum c) eqn:Hc; simpl; [by rewrite Hc|done].
Qed.

Lemma strip_non_alnum_length (s : string) :
  (String.length (strip_non_alnum s) <= String.length s)%nat.
Proof.
  induction s as [|c s IH]; simpl; [done|].
  destruct (alnum c); simpl; lia.
Qed.

Lemma strip_non_alnum_fixed (s : string) :
  strip_non_alnum s = s ↔ all_alnum s = true.
Proof.
  induction s as [|c s IH]; simpl; [done|].
  destruct (alnum c) eqn:Hc; simpl.
  - rewrite <- IH. split; [by intros [= ?]|by intros ->].
  - split; [|done]. intros Heq.
    pose proof (strip_non_alnum_length s) as Hlen.
    rewrite Heq in Hlen. simpl in Hlen. lia.
Qed.

Lemma strip_non_alnum_app (s1 s2 : string) :
  strip_non_alnum (s1 ++ s2) = strip_non_alnum s1 ++ strip_non_alnum s2.
Proof.
  induction s1 as [|c s1 IH]; simpl; [done|].
  destruct (alnum c); simpl; by rewrite IH.
Qed.

(** X1.  A cleaned invoice number consists of characters of
    [[0-9a-zA-Z]] only, cleaning it again changes nothing, and the invoice
    numbers that cleaning leaves as they are are exactly those made of
    such characters only. *)
Theorem clean_invoice_alnum_idempotent (invoice : string) :
  all_alnum (clean_invoice invoice) = true
  ∧ clean_invoice (clean_invoice invoice) = clean_invoice invoice
  ∧ (clean_invoice invoice = invoice ↔ all_alnum invoice = true).
Proof.
  rewrite !clean_invoice_strip. split; [apply strip_non_alnum_all_alnum|].
  split; [|apply strip_non_alnum_fixed].
  apply strip_non_alnum_fixed, strip_non_alnum_all_alnum.
Qed.

(** X2.  Cleaning works character by character: the cleaned form of a
    concatenation is the concatenation of the cleaned forms, so where the
    separators stand in an invoice number, and how many there are, does
    not matter; and cleaning never makes the number longer. *)
Theorem clean_invoice_app (s1 s2 : string) :
  clean_invoice (s1 ++ s2) = clean_invoice s1 ++ clean_invoice s2
  ∧ (String.length (clean_invoice s1) <= String.length s1)%nat.
Proof.
  rewrite !clean_invoice_strip.
  split; [apply strip_non_alnum_app|apply strip_non_alnum_length].
Qed.

(** ** When a call raises *)

Lemma has_candidate_exists (company_df : list Company.row)
  (portal_df : list Portal.row) :
  has_candidate (unmatched_after_pass1 company_df portal_df) portal_df
  ↔ ∃ c p, c ∈ company_df ∧ p ∈ portal_df
           ∧ (Company.invoice_no c
              ∉ pass1_matched_invoices company_df portal_df)
           ∧ Portal.gstin p = Company.gstin c.
Proof.
  unfold has_candidate. rewrite Exists_exists. split.
  - intros (c & [Hn Hc]%list_elem_of_filter & (p & Hp & Hg)%Exists_exists).
    by exists c, p.
  - intros (c & p & Hc & Hp & Hn & Hg). exists c.
    split; [by apply list_elem_of_filter|]. apply Exists_exists. by exists p.
Qed.

(** X3.  A call raises exactly when the tolerance is positive and some
    company record whose invoice number the first pass did not match has a
    portal record under its GSTIN; the exception is then
    [KeyError 'Invoice Date_x'], and no other exception is ever raised. *)
Theorem match_invoices_raises_iff (company_df : list Company.row)
  (portal_df : list Portal.row) (buffer_size : Z) :
  (rejected (snd (match_invoices company_df portal_df buffer_size))
   ↔ 0 < buffer_size
     ∧ ∃ c p, c ∈ company_df ∧ p ∈ portal_df
              ∧ (Company.invoice_no c
                 ∉ pass1_matched_invoices company_df portal_df)
              ∧ Portal.gstin p = Company.gstin c)
  ∧ ∀ e, snd (match_invoices company_df portal_df buffer_size) = inl e →
         e = KeyError "Invoice Date_x".
Proof.
  rewrite match_invoices_outcome, <- has_candidate_exists.
  destruct (decide (reaches_comparison _ _ _)) as [Hr|Hn].
  - split; [|by intros e [= <-]]. split; [done|]. intros _. by eexists.
  - split; [|done]. split; [by intros [e ?]|done].
Qed.

(** X4.  No call returns a Close record: every record of a returned
    matched list has Match Status Exact, whatever the tolerance. *)
Theorem returned_records_are_exact (company_df : list Company.row)
  (portal_df : list Portal.row) (buffer_size : Z)
  (matched : list Matched.record) (unmatched : list Unmatched.record) :
  snd (match_invoices company_df portal_df buffer_size)
  = inr (matched, unmatched) →
  ∀ m, m ∈ matched → Matched.Match_Status m = Exact.
Proof.
  rewrite match_invoices_outcome. case_decide; [done|].
  intros [= <- _] m (row & -> & _)%list_elem_of_fmap. done.
Qed.

Lemma returned_records_are_exact_witness :
  Matched.Match_Status matched_inv001 = Exact.
Proof.
  apply (returned_records_are_exact [company_inv001; company_inv007]
           [portal_inv001] 0 [matched_inv001] [unmatched_inv007]).
  - vm_compute. reflexivity.
  - by left.
Defined.

Lemma exact_pairs_nil (company_df : list Company.row)
  (portal_df : list Portal.row) :
  (∀ c p, c ∈ company_df → p ∈ portal_df → ¬ same_key c p) →
  exact_pairs company_df portal_df = [].
Proof.
  intros Hno. destruct (exact_pairs company_df portal_df) as [|[c p] l] eqn:E;
    [done|].
  assert (Hin : (c, p) ∈ exact_pairs company_df portal_df)
    by (rewrite E; by left).
  apply exact_pairs_elem in Hin as (Hc & Hp & Hk). by destruct (Hno c p).
Qed.

Lemma not_isin_all (M : gset string) (company_df : list Company.row) :
  (∀ c, c ∈ company_df → Company.invoice_no c ∉ M) →
  not_isin M company_df = company_df.
Proof.
  unfold not_isin. induction company_df as [|c l IH]; intros Hall; [done|].
  rewrite filter_cons, decide_True by (apply Hall; by left).
  f_equal. apply IH. intros c' Hc'. apply Hall. by right.
Qed.

(** X5.  When no portal record carries the GSTIN of a company record, in
    particular when the portal table is empty, the call returns for every
    tolerance: nothing is matched and every company record is reported
    unmatched, in the order of the company table. *)
Theorem no_common_gstin_all_unmatched (company_df : list Company.row)
  (portal_df : list Portal.row) (buffer_size : Z) :
  (∀ c p, c ∈ company_df → p ∈ portal_df →
          Company.gstin c ≠ Portal.gstin p) →
  snd (match_invoices company_df portal_df buffer_size)
  = inr ([], map unmatched_record_of company_df).
Proof.
  intros Hno.
  assert (Hpairs : exact_pairs company_df portal_df = []).
  { apply exact_pairs_nil. intros c p Hc Hp [Hg _]. by apply (Hno c p). }
  rewrite no_comparison_returns.
  - unfold unmatched_after_pass1, pass1_matched_invoices.
    rewrite Hpairs. simpl. by rewrite not_isin_all.
  - intros [_ (c & p & Hc & Hp & _ & Hg)%has_candidate_exists].
    by apply (Hno c p).
Qed.

Lemma no_common_gstin_all_unmatched_witness :
  snd (match_invoices [company_inv001; company_inv007] [] 10)
  = inr ([], map unmatched_record_of [company_inv001; company_inv007]).
Proof.
  apply no_common_gstin_all_unmatched.
  intros c p _ Hp. by apply elem_of_nil in Hp.
Defined.

(** X6.  The unmatched list of a call that returns keeps the order of the
    company table: it lists, in that order, the records of a part of the
    company rows, so it is never longer than the company table. *)
Theorem unmatched_in_company_order (company_df : list Company.row)
  (portal_df : list Portal.row) (buffer_size : Z)
  (matched : list Matched.record) (unmatched : list Unmatched.record) :
  snd (match_invoices company_df portal_df buffer_size)
  = inr (matched, unmatched) →
  (∃ kept, kept `sublist_of` company_df
           ∧ unmatched = map unmatched_record_of kept)
  ∧ (length unmatched <= length company_df)%nat.
Proof.
  rewrite match_invoices_outcome. case_decide; [done|]. intros [= _ <-].
  assert (Hsub : unmatched_after_pass1 company_df portal_df
                 `sublist_of` company_df) by apply sublist_filter.
  split; [by eexists|].
  rewrite length_map. by apply sublist_length.
Qed.

Lemma unmatched_in_company_order_witness :
  (∃ kept, kept `sublist_of` [company_inv001; company_inv007]
           ∧ [unmatched_inv007] = map unmatched_record_of kept)
  ∧ (length [unmatched_inv007] <= length [company_inv001; company_inv007])%nat.
Proof.
  apply (unmatched_in_company_order _ [portal_inv001] 0 [matched_inv001]).
  vm_compute. reflexivity.
Defined.

(** X7.  For a call that returns, a company record is reported unmatched
    exactly when no company record carrying its raw invoice number, itself
    included, has a portal record with the same GSTIN and cleaned invoice
    number. *)
Theorem unmatched_iff_invoice_no_unmatched (company_df : list Company.row)
  (portal_df : list Portal.row) (buffer_size : Z)
  (matched : list Matched.record) (unmatched : list Unmatched.record) :
  snd (match_invoices company_df portal_df buffer_size)
  = inr (matched, unmatched) →
  ∀ c, c ∈ company_df →
    (unmatched_record_of c ∈ unmatched
     ↔ ∀ c' p, c' ∈ company_df → p ∈ portal_df →
               Company.invoice_no c' = Company.invoice_no c →
               ¬ same_key c' p).
Proof.
  rewrite match_invoices_outcome. case_decide; [done|]. intros [= _ <-] c Hc.
  split.
  - intros (c1 & Heq & [Hn _]%list_elem_of_filter)%list_elem_of_fmap
      c' p Hc' Hp Hi Hk.
    apply Hn, pass1_matched_invoices_elem. exists c', p.
    split; [done|]. split; [done|]. split; [done|]. rewrite Hi.
    exact (f_equal Unmatched.Invoice_No Heq).
  - intros Hno. apply (list_elem_of_fmap_2 unmatched_record_of).
    apply list_elem_of_filter. split; [|done].
    intros (c' & p & Hc' & Hp & Hk & Hi)%pass1_matched_invoices_elem.
    by apply (Hno c' p).
Qed.

Lemma unmatched_iff_invoice_no_unmatched_witness :
  unmatched_record_of company_inv007 ∈ [unmatched_inv007]
  ↔ ∀ c' p, c' ∈ [company_inv001; company_inv007] → p ∈ [portal_inv001] →
            Company.invoice_no c' = Company.invoice_no company_inv007 →
            ¬ same_key c' p.
Proof.
  apply (unmatched_iff_invoice_no_unmatched _ _ 0 [matched_inv001]).
  - vm_compute. reflexivity.
  - right. by left.
Defined.

(** ** Counting the records *)

Lemma same_key_at_most_once (portal_df : list Portal.row) (c : Company.row) :
  NoDup (map portal_key portal_df) →
  (length (filter (same_key c) portal_df) <= 1)%nat.
Proof.
  induction portal_df as [|p l IH]; simpl; intros Hnd; [by auto|].
  apply NoDup_cons in Hnd as [Hp Hnd]. rewrite filter_cons.
  destruct (decide (same_key c p)) as [Hk|Hk]; [|by apply IH].
  rewrite (proj2 (filter_nil_not_Exists (same_key c) l)); [done|].
  intros (p' & Hp' & Hk')%Exists_exists. apply Hp.
  replace (portal_key p) with (portal_key p').
  - by apply list_elem_of_fmap_2.
  - destruct Hk as [Hg Hi], Hk' as [Hg' Hi']. unfold portal_key.
    by rewrite <- Hg, <- Hg', <- Hi, <- Hi'.
Qed.

Lemma same_key_matched (company_df : list Company.row)
  (portal_df : list Portal.row) (c : Company.row) :
  c ∈ company_df →
  Company.invoice_no c ∉ pass1_matched_invoices company_df portal_df →
  filter (same_key c) portal_df = [].
Proof.
  intros Hc Hn. apply filter_nil_not_Exists.
  intros (p & Hp & Hk)%Exists_exists. apply Hn.
  apply pass1_matched_invoices_elem. by exists c, p.
Qed.

Lemma matched_same_key (company_df : list Company.row)
  (portal_df : list Portal.row) (c : Company.row) :
  NoDup (map Company.invoice_no company_df) →
  c ∈ company_df →
  Company.invoice_no c ∈ pass1_matched_invoices company_df portal_df →
  (1 <= length (filter (same_key c) portal_df))%nat.
Proof.
  intros Hnd Hc (c' & p & Hc' & Hp & Hk & Hi)%pass1_matched_invoices_elem.
  assert (c' = c) as -> by exact (NoDup_map_eq _ _ _ _ Hnd Hc' Hc Hi).
  assert (Hin : p ∈ filter (same_key c) portal_df)
    by by apply list_elem_of_filter.
  destruct (filter (same_key c) portal_df); [by apply elem_of_nil in Hin|].
  simpl. lia.
Qed.

Lemma filter_all {A : Type} (Q : A -> Prop) `{!∀ x, Decision (Q x)}
  (l : list A) :
  Forall Q l → filter Q l = l.
Proof.
  induction 1 as [|x l Hx _ IH]; [done|].
  by rewrite filter_cons, decide_True, IH.
Qed.

Section Counting.
Context {A B : Type} (f : A -> list B) (Q : A -> Prop) `{!∀ x, Decision (Q x)}.

Lemma count_at_least (l : list A) :
  (∀ x, x ∈ l → Q x ∨ (1 <= length (f x))%nat) →
  (length l <= length (flat_map f l) + length (filter Q l))%nat.
Proof.
  induction l as [|x l IH]; intros Hall; simpl; [done|].
  rewrite length_app, filter_cons.
  assert (IH' := IH (fun y Hy => Hall y (list_elem_of_further _ _ _ Hy))).
  destruct (Hall x (list_elem_of_here _ _)) as [Hq|Hf].
  - rewrite decide_True by done. simpl. lia.
  - case_decide; simpl; lia.
Qed.

Lemma count_at_most (l : list A) :
  (∀ x, x ∈ l → (Q x ∧ f x = []) ∨ (¬ Q x ∧ (length (f x) <= 1)%nat)) →
  (length (flat_map f l) + length (filter Q l) <= length l)%nat.
Proof.
  induction l as [|x l IH]; intros Hall; simpl; [done|].
  rewrite length_app, filter_cons.
  assert (IH' := IH (fun y Hy => Hall y (list_elem_of_further _ _ _ Hy))).
  destruct (Hall x (list_elem_of_here _ _)) as [[Hq Hf]|[Hq Hf]].
  - rewrite decide_True, Hf by done. simpl. lia.
  - rewrite decide_False by done. lia.
Qed.

End Counting.

(** X8.  For a call that returns, the two counts that [save_results]
    returns, and the summary shows, relate to the number of company
    records as follows: they add up to at least that number when the raw
    invoice numbers of the company table are pairwise distinct, to at most
    that number when the (GSTIN, cleaned invoice number) keys of the portal
    table are pairwise distinct, and hence to exactly that number when
    both hold. *)
Theorem matched_and_unmatched_counts (company_df : list Company.row)
  (portal_df : list Portal.row) (buffer_size : Z)
  (matched : list Matched.record) (unmatched : list Unmatched.record) :
  snd (match_invoices company_df portal_df buffer_size)
  = inr (matched, unmatched) →
  let counts := snd (save_results matched unmatched) in
  (NoDup (map Company.invoice_no company_df) →
   (length company_df <= fst counts + snd counts)%nat)
  ∧ (NoDup (map portal_key portal_df) →
     (fst counts + snd counts <= length company_df)%nat).
Proof.
  rewrite match_invoices_outcome. case_decide; [done|]. intros [= <- <-].
  cbn [save_results fst snd]. rewrite !length_map.
  unfold exact_pairs, unmatched_after_pass1, not_isin. split; intros Hnd.
  - apply (count_at_least
             (fun c => map (pair c) (filter (same_key c) portal_df))).
    intros c Hc. rewrite length_map.
    destruct (decide (Company.invoice_no c
                      ∈ pass1_matched_invoices company_df portal_df));
      [right|by left].
    by apply (matched_same_key company_df).
  - apply (count_at_most
             (fun c => map (pair c) (filter (same_key c) portal_df))).
    intros c Hc. rewrite length_map.
    destruct (decide (Company.invoice_no c
                      ∈ pass1_matched_invoices company_df portal_df))
      as [Hin|Hin].
    + right. split; [by intros ?|]. by apply same_key_at_most_once.
    + left. split; [done|]. by rewrite (same_key_matched company_df).
Qed.

Lemma matched_and_unmatched_counts_witness :
  (length [company_inv001; company_inv007] <= 1 + 1)%nat
  ∧ (1 + 1 <= length [company_inv001; company_inv007])%nat.
Proof.
  destruct (matched_and_unmatched_counts
              [company_inv001; company_inv007] [portal_inv001] 0
              [matched_inv001] [unmatched_inv007]) as [Hge Hle].
  { vm_compute. reflexivity. }
  split; [apply Hge|apply Hle]; by_computation.
Defined.

(** X9.  The first pass is a cross product: when the raw invoice numbers
    of the company table are pairwise distinct and the call returns, the
    matched list holds, for each company record, as many records under
    its invoice number as there are portal records with its GSTIN and
    cleaned invoice number; a key that occurs [k] times on the portal is
    reported [k] times. *)
Theorem one_record_per_portal_match (company_df : list Company.row)
  (portal_df : list Portal.row) (buffer_size : Z)
  (matched : list Matched.record) (unmatched : list Unmatched.record) :
  NoDup (map Company.invoice_no company_df) →
  snd (match_invoices company_df portal_df buffer_size)
  = inr (matched, unmatched) →
  ∀ c, c ∈ company_df →
    length (filter (fun m => Matched.Invoice_No m = Company.invoice_no c)
              matched)
    = length (filter (same_key c) portal_df).
Proof.
  intros Hnd. rewrite match_invoices_outcome. case_decide; [done|].
  intros [= <- _] c Hc. rewrite filter_map, length_map. unfold exact_pairs.
  clear H. induction company_df as [|c' l IH]; [by apply elem_of_nil in Hc|].
  simpl in Hnd. apply NoDup_cons in Hnd as [Hc' Hnd]. simpl.
  rewrite filter_app, length_app, filter_map, length_map. cbn [fst].
  apply elem_of_cons in Hc as [->|Hc].
  - rewrite filter_all by (apply Forall_forall; by intros).
    rewrite (proj2 (filter_nil_not_Exists _ (flat_map _ l))); [simpl; lia|].
    intros ([c1 p1] & Hin & Hi)%Exists_exists. simpl in Hi.
    apply list_elem_of_In, in_flat_map in Hin as (c2 & Hc2 & Hin).
    apply list_elem_of_In in Hc2, Hin.
    apply list_elem_of_fmap in Hin as (p2 & [= -> ->] & _).
    apply Hc'. rewrite <- Hi. by apply list_elem_of_fmap_2.
  - rewrite (proj2 (filter_nil_not_Exists _ (filter (same_key c') portal_df))).
    + simpl. by apply IH.
    + intros (p1 & _ & Hi)%Exists_exists.
      apply Hc'. rewrite Hi. by apply list_elem_of_fmap_2.
Qed.

Lemma one_record_per_portal_match_witness :
  length (filter (fun m => Matched.Invoice_No m
                           = Company.invoice_no company_inv001)
            [matched_inv001; matched_inv001])
  = length (filter (same_key company_inv001) [portal_inv001; portal_inv001]).
Proof.
  apply (one_record_per_portal_match [company_inv001]
           [portal_inv001; portal_inv001] 0 _ []).
  - by_computation.
  - vm_compute. reflexivity.
  - by left.
Defined.

(** ** The portal table as a collection *)

Lemma exact_pairs_Permutation (company_df : list Company.row)
  (portal_df portal_df' : list Portal.row) :
  portal_df ≡ₚ portal_df' →
  exact_pairs company_df portal_df ≡ₚ exact_pairs company_df portal_df'.
Proof.
  intros HP. unfold exact_pairs.
  induction company_df as [|c l IH]; simpl; [done|].
  apply Permutation_app; [|done].
  apply Permutation_map. by rewrite HP.
Qed.

Lemma pass1_matched_invoices_Permutation (company_df : list Company.row)
  (portal_df portal_df' : list Portal.row) :
  portal_df ≡ₚ portal_df' →
  pass1_matched_invoices company_df portal_df
  = pass1_matched_invoices company_df portal_df'.
Proof.
  intros HP. unfold pass1_matched_invoices, matched_invoices_of.
  apply list_to_set_perm_L, Permutation_map.
  by apply exact_pairs_Permutation.
Qed.

(** X10.  The order of the portal rows does not matter: on two portal
    tables with the same rows in different orders the call raises the same
    exception or returns the same unmatched list and the same matched
    records, in an order that may differ. *)
Theorem portal_order_irrelevant (company_df : list Company.row)
  (portal_df portal_df' : list Portal.row) (buffer_size : Z) :
  portal_df ≡ₚ portal_df' →
  match snd (match_invoices company_df portal_df buffer_size),
        snd (match_invoices company_df portal_df' buffer_size) with
  | inl e, inl e' => e = e'
  | inr (matched, unmatched), inr (matched', unmatched') =>
      matched ≡ₚ matched' ∧ unmatched = unmatched'
  | _, _ => False
  end.
Proof.
  intros HP. rewrite !match_invoices_outcome.
  assert (HM := pass1_matched_invoices_Permutation company_df _ _ HP).
  assert (Hiff : reaches_comparison company_df portal_df buffer_size
                 ↔ reaches_comparison company_df portal_df' buffer_size).
  { unfold reaches_comparison. rewrite !has_candidate_exists, HM.
    by setoid_rewrite HP. }
  destruct (decide (reaches_comparison company_df portal_df _)) as [Hr|Hn].
  - by rewrite decide_True by by apply Hiff.
  - rewrite decide_False by by rewrite <- Hiff.
    unfold unmatched_after_pass1. rewrite HM. split; [|done].
    by apply Permutation_map, exact_pairs_Permutation.
Qed.

Lemma portal_order_irrelevant_witness :
  match snd (match_invoices [company_inv001; company_inv007]
               [portal_inv001; portal_inv002] 0),
        snd (match_invoices [company_inv001; company_inv007]
               [portal_inv002; portal_inv001] 0) with
  | inl e, inl e' => e = e'
  | inr (matched, unmatched), inr (matched', unmatched') =>
      matched ≡ₚ matched' ∧ unmatched = unmatched'
  | _, _ => False
  end.
Proof.
  apply portal_order_irrelevant. apply perm_swap.
Defined.

Lemma filter_sublist_impl {A : Type} (Q Q' : A -> Prop)
  `{!∀ x, Decision (Q x)} `{!∀ x, Decision (Q' x)} (l : list A) :
  (∀ x, Q' x → Q x) → filter Q' l `sublist_of` filter Q l.
Proof.
  intros Himp. induction l as [|x l IH]; [done|].
  rewrite !filter_cons. destruct (decide (Q' x)) as [H'|H'].
  - rewrite decide_True by auto. by apply sublist_skip.
  - case_decide; [by apply sublist_cons|done].
Qed.

Lemma exact_pairs_app_sublist (company_df : list Company.row)
  (portal_df more : list Portal.row) :
  exact_pairs company_df portal_df
  `sublist_of` exact_pairs company_df (portal_df ++ more).
Proof.
  unfold exact_pairs. induction company_df as [|c l IH]; simpl; [done|].
  apply sublist_app; [|done].
  rewrite filter_app, map_app. by apply sublist_inserts_r.
Qed.

(** X11.  With a tolerance that is not positive, adding records to the
    portal table only adds matches: every matched record before is a
    matched record after, as often at least, and the unmatched list after
    is part of the unmatched list before, in the same order. *)
Theorem more_portal_records_match_more (company_df : list Company.row)
  (portal_df more : list Portal.row) (buffer_size : Z) :
  buffer_size <= 0 →
  ∃ matched unmatched matched' unmatched',
    snd (match_invoices company_df portal_df buffer_size)
    = inr (matched, unmatched)
    ∧ snd (match_invoices company_df (portal_df ++ more) buffer_size)
      = inr (matched', unmatched')
    ∧ matched ⊆+ matched'
    ∧ unmatched' `sublist_of` unmatched.
Proof.
  intros Ht. eexists _, _, _, _.
  split; [by apply no_comparison_returns, nonpositive_no_comparison|].
  split; [by apply no_comparison_returns, nonpositive_no_comparison|].
  split.
  - apply sublist_submseteq, fmap_sublist, exact_pairs_app_sublist.
  - apply fmap_sublist. unfold unmatched_after_pass1, not_isin.
    apply filter_sublist_impl. intros c Hn Hin. apply Hn.
    apply pass1_matched_invoices_elem in Hin as (c' & p & Hc' & Hp & Hk & Hi).
    apply pass1_matched_invoices_elem. exists c', p.
    split; [done|]. split; [|done]. apply elem_of_app. by left.
Qed.

Lemma more_portal_records_match_more_witness :
  ∃ matched unmatched matched' unmatched',
    snd (match_invoices [company_inv001; company_inv007] [] 0)
    = inr (matched, unmatched)
    ∧ snd (match_invoices [company_inv001; company_inv007]
             ([] ++ [portal_inv001]) 0)
      = inr (matched', unmatched')
    ∧ matched ⊆+ matched'
    ∧ unmatched' `sublist_of` unmatched.
Proof.
  apply more_portal_records_match_more. vm_compute. discriminate.
Defined.

(** * Properties of the loader *)

(** ** Frames by columns *)

Lemma lookup_column_elem (df : sheet) (label : string)
  (series : list raw_cell) :
  lookup_column df label = Some series → (label, series) ∈ df.
Proof.
  induction df as [|[l s] df IH]; simpl; [done|].
  destruct (String.eqb_spec l label) as [->|Hne].
  - intros [= ->]. by left.
  - intros H. right. by apply IH.
Qed.

Lemma lookup_column_None (df : sheet) (label : string) :
  lookup_column df label = None ↔ label ∉ labels df.
Proof.
  unfold labels. induction df as [|[l s] df IH]; simpl.
  - split; [intros _; apply not_elem_of_nil|done].
  - rewrite not_elem_of_cons.
    destruct (String.eqb_spec l label) as [->|Hne].
    + split; [done|]. by intros [? _].
    + rewrite IH. split; [by split|by intros [_ ?]].
Qed.

Lemma lookup_column_is_Some (df : sheet) (label : string) :
  is_Some (lookup_column df label) ↔ label ∈ labels df.
Proof.
  rewrite <- not_eq_None_Some, lookup_column_None.
  destruct (decide (label ∈ labels df)); tauto.
Qed.

Lemma select_columns_missing (df : sheet) (wanted : list string)
  (label : string) :
  label ∈ fst (select_columns df wanted)
  ↔ label ∈ wanted ∧ label ∉ labels df.
Proof.
  induction wanted as [|l w IH]; simpl.
  - split; [intros H|intros [H _]]; by apply elem_of_nil in H.
  - destruct (select_columns df w) as [missing found]. simpl in IH.
    destruct (lookup_column df l) as [s|] eqn:E; simpl.
    + rewrite IH, elem_of_cons. split; [by intros [? ?]; auto|].
      intros [[->|?] Hn]; [|done].
      apply lookup_column_None in Hn. congruence.
    + apply lookup_column_None in E. rewrite !elem_of_cons, IH.
      split; [intros [->|[? ?]]; auto|]. intros [[->|?] ?]; auto.
Qed.

Lemma select_columns_found (df : sheet) (wanted : list string) :
  fst (select_columns df wanted) = [] →
  labels (snd (select_columns df wanted)) = wanted
  ∧ (∀ label, label ∈ wanted →
              lookup_column (snd (select_columns df wanted)) label
              = lookup_column df label)
  ∧ (∀ col, col ∈ snd (select_columns df wanted) → col ∈ df).
Proof.
  induction wanted as [|l w IH]; simpl.
  - intros _. split; [done|]. split; intros x Hx; by apply elem_of_nil in Hx.
  - destruct (select_columns df w) as [missing found]. simpl in IH.
    destruct (lookup_column df l) as [s|] eqn:E; simpl; [|done].
    intros Hm. destruct (IH Hm) as (Hl & Hlook & Hsub).
    split; [by rewrite Hl|]. split.
    + intros label Hin. destruct (String.eqb_spec l label) as [->|Hne];
        [done|].
      apply Hlook. by apply elem_of_cons in Hin as [->|?].
    + intros col [->|Hc]%elem_of_cons; [by apply lookup_column_elem|auto].
Qed.

Lemma getitem_columns_inr (df found : sheet) (wanted : list string) :
  getitem_columns df wanted = inr found →
  labels found = wanted
  ∧ (∀ label, label ∈ wanted →
              lookup_column found label = lookup_column df label)
  ∧ (∀ col, col ∈ found → col ∈ df)
  ∧ ∀ label, label ∈ wanted → label ∈ labels df.
Proof.
  unfold getitem_columns.
  pose proof (select_columns_found df wanted) as Hf.
  pose proof (select_columns_missing df wanted) as Hm.
  destruct (select_columns df wanted) as [[|m missing] found']; [|done].
  intros [= <-]. destruct (Hf eq_refl) as (? & ? & ?).
  repeat split; try done. intros label Hin.
  destruct (decide (label ∈ labels df)) as [|Hn]; [done|].
  pose proof (proj2 (Hm label) (conj Hin Hn)) as Hx.
  by apply elem_of_nil in Hx.
Qed.

Lemma getitem_columns_inl (df : sheet) (wanted : list string) :
  (∃ label, label ∈ wanted ∧ label ∉ labels df) →
  ∃ missing,
    getitem_columns df wanted = inl (LKeyError missing)
    ∧ ∀ label, label ∈ missing ↔ label ∈ wanted ∧ label ∉ labels df.
Proof.
  intros (l & Hl). unfold getitem_columns.
  pose proof (select_columns_missing df wanted) as Hm.
  destruct (select_columns df wanted) as [[|m missing] found'].
  - apply Hm in Hl. by apply elem_of_nil in Hl.
  - by eexists.
Qed.

Lemma lookup_setitem (df : sheet) (label label' : string)
  (series : list raw_cell) :
  lookup_column (setitem df label series) label'
  = if String.eqb label label' then Some series
    else lookup_column df label'.
Proof.
  induction df as [|[l s] df IH]; simpl.
  - by destruct (String.eqb label label').
  - destruct (String.eqb_spec l label) as [->|Hne]; simpl.
    + by destruct (String.eqb label label').
    + rewrite IH. destruct (String.eqb_spec label label') as [->|Hne'];
        [|done].
      by rewrite (proj2 (String.eqb_neq l label')).
Qed.

Lemma labels_setitem (df : sheet) (label : string) (series : list raw_cell) :
  labels (setitem df label series)
  = if decide (label ∈ labels df) then labels df
    else (labels df ++ [label])%list.
Proof.
  unfold labels. induction df as [|[l s] df IH]; cbn [setitem map fst].
  - destruct (decide (label ∈ [])) as [H|H]; [by apply elem_of_nil in H|done].
  - destruct (String.eqb_spec l label) as [->|Hne]; cbn [map fst].
    + by rewrite decide_True by by left.
    + rewrite IH. destruct (decide (label ∈ map fst df)) as [Hin|Hn].
      * by rewrite decide_True by by right.
      * rewrite decide_False; [done|].
        by intros [?|?]%elem_of_cons.
Qed.

Lemma has_rows_setitem (n : nat) (df : sheet) (label : string)
  (series : list raw_cell) :
  has_rows n df → length series = n → has_rows n (setitem df label series).
Proof.
  unfold has_rows. intros Hdf Hs.
  induction df as [|[l s] df IH]; simpl; [by repeat constructor|].
  apply Forall_cons in Hdf as [Hl Hdf].
  destruct (String.eqb l label); constructor; auto.
Qed.

Lemma has_rows_lookup (n : nat) (df : sheet) (label : string)
  (series : list raw_cell) :
  has_rows n df → lookup_column df label = Some series → length series = n.
Proof.
  intros Hdf Hl%lookup_column_elem.
  exact (proj1 (Forall_forall _ _) Hdf _ Hl).
Qed.

Lemma and_then_inr {A B : Type} (m : loading A) (k : A -> loading B) (b : B) :
  and_then m k = inr b ↔ ∃ a, m = inr a ∧ k a = inr b.
Proof.
  destruct m as [e|a]; simpl; split; try done.
  - by intros (a & ? & _).
  - eauto.
  - by intros (a' & [= ->] & ?).
Qed.

(** ** [load_data] *)

Section LoaderProperties.
Variable to_datetime_cell : string -> raw_cell -> option raw_cell.
Variable add_cell : raw_cell -> raw_cell -> option raw_cell.

Lemma parse_dates_inr (df df' : sheet) (format : string) :
  parse_dates to_datetime_cell df format = inr df' →
  ∃ dates parsed,
    lookup_column df "Invoice Date" = Some dates
    ∧ Forall2 (fun raw d => to_datetime_cell format raw = Some d) dates parsed
    ∧ df' = setitem df "Invoice Date" parsed.
Proof.
  unfold parse_dates, getitem_column, to_datetime.
  destruct (lookup_column df "Invoice Date") as [dates|]; [|done]. simpl.
  destruct (mapM _ dates) as [parsed|] eqn:E; [|done]. simpl.
  intros [= <-]. exists dates, parsed. by apply mapM_Some in E.
Qed.

Lemma add_series_inr (a b sums : list raw_cell) :
  add_series add_cell a b = inr sums →
  Forall2 (fun xy r => add_cell (fst xy) (snd xy) = Some r) (zip a b) sums.
Proof.
  unfold add_series. destruct (mapM _ (zip a b)) as [r|] eqn:E; [|done].
  intros [= <-]. by apply mapM_Some in E.
Qed.

Lemma add_total_inr (df df' : sheet) (cgst sgst igst : string) :
  add_total add_cell df cgst sgst igst = inr df' →
  ∃ c s i cs total,
    lookup_column df cgst = Some c
    ∧ lookup_column df sgst = Some s
    ∧ lookup_column df igst = Some i
    ∧ Forall2 (fun xy r => add_cell (fst xy) (snd xy) = Some r) (zip c s) cs
    ∧ Forall2 (fun xy r => add_cell (fst xy) (snd xy) = Some r) (zip cs i)
        total
    ∧ df' = setitem df "Total" total.
Proof.
  unfold add_total, getitem_column.
  destruct (lookup_column df cgst) as [c|]; [|done]. simpl.
  destruct (lookup_column df sgst) as [s|]; [|done]. simpl.
  intros (cs & Hcs%add_series_inr & H)%and_then_inr.
  destruct (lookup_column df igst) as [i|]; [|done]. simpl in H.
  apply and_then_inr in H as (total & Ht%add_series_inr & [= <-]).
  by exists c, s, i, cs, total.
Qed.

(** The steps of a call that returns. *)
Lemma load_data_inr (self : GSTMatcher) (company_file portal_file : option sheet)
  (company_df portal_df : sheet) :
  load_data to_datetime_cell add_cell self company_file portal_file
  = inr (company_df, portal_df) →
  ∃ company_sheet portal_sheet c0 p0 c1 p1,
    company_file = Some company_sheet
    ∧ portal_file = Some portal_sheet
    ∧ getitem_columns company_sheet (company_columns self) = inr c0
    ∧ getitem_columns portal_sheet (portal_columns self) = inr p0
    ∧ parse_dates to_datetime_cell c0
        (date_formats_company (self_config self)) = inr c1
    ∧ parse_dates to_datetime_cell p0
        (date_formats_portal (self_config self)) = inr p1
    ∧ add_total add_cell c1 "CGST Amount" "SGST Amount" "IGST Amount"
      = inr company_df
    ∧ add_total add_cell p1 "Central Tax(₹)" "State/UT Tax(₹)"
        "Integrated Tax(₹)" = inr portal_df.
Proof.
  unfold load_data.
  destruct (load_data_body _ _ _ _ _) as [[]|tables] eqn:E; try done.
  intros [= ->]. unfold load_data_body in E.
  apply and_then_inr in E as (c0 & Hc0 & E).
  apply and_then_inr in E as (p0 & Hp0 & E).
  apply and_then_inr in E as (c1 & Hc1 & E).
  apply and_then_inr in E as (p1 & Hp1 & E).
  apply and_then_inr in E as (c2 & Hc2 & E).
  apply and_then_inr in E as (p2 & Hp2 & [= <- <-]).
  destruct company_file as [cs|]; [|done].
  destruct portal_file as [ps|]; [|done].
  by exists cs, ps, c0, p0, c1, p1.
Qed.

(** X12.  A configured company column that the company sheet lacks makes
    [load_data] raise [ValueError("Column not found: ...")] for exactly the
    missing company labels, before the portal file is even read; when the
    company sheet is complete, a configured column that the portal sheet
    lacks does the same for the missing portal labels. *)
Theorem load_data_missing_column (self : GSTMatcher)
  (company_sheet : sheet) (portal_file : option sheet) :
  ((∃ label, label ∈ company_columns self ∧ label ∉ labels company_sheet) →
   ∃ missing,
     load_data to_datetime_cell add_cell self (Some company_sheet) portal_file
     = inl (Column_not_found missing)
     ∧ ∀ label, label ∈ missing
                ↔ label ∈ company_columns self
                  ∧ label ∉ labels company_sheet)
  ∧ ((∀ label, label ∈ company_columns self → label ∈ labels company_sheet) →
     ∀ portal_sheet,
       portal_file = Some portal_sheet →
       (∃ label, label ∈ portal_columns self ∧ label ∉ labels portal_sheet) →
       ∃ missing,
         load_data to_datetime_cell add_cell self (Some company_sheet)
           portal_file
         = inl (Column_not_found missing)
         ∧ ∀ label, label ∈ missing
                    ↔ label ∈ portal_columns self
                      ∧ label ∉ labels portal_sheet).
Proof.
  split.
  - intros (missing & Hsel & Hm)%getitem_columns_inl. exists missing.
    split; [|done]. unfold load_data, load_data_body. simpl.
    by rewrite Hsel.
  - intros Hall portal_sheet -> (missing & Hsel & Hm)%getitem_columns_inl.
    exists missing. split; [|done].
    unfold load_data, load_data_body. simpl.
    destruct (getitem_columns company_sheet _) as [[m|]|c0] eqn:Hc; simpl.
    + exfalso. unfold getitem_columns in Hc.
      pose proof (select_columns_missing company_sheet
                    (company_columns self)) as Hmiss.
      destruct (select_columns company_sheet _) as [[|l ls] found];
        [done|].
      simplify_eq. destruct (proj1 (Hmiss l)) as [Hl Hn]; [by left|].
      by apply Hn, Hall.
    + unfold getitem_columns in Hc.
      by destruct (select_columns company_sheet _) as [[|l ls] found].
    + by rewrite Hsel.
Qed.

(** X13.  [load_data] reads the date and tax columns under fixed labels,
    whatever the configuration says: it can only return if the configured
    company columns include 'Invoice Date', 'CGST Amount', 'SGST Amount'
    and 'IGST Amount' and the configured portal columns include
    'Invoice Date', 'Central Tax(₹)', 'State/UT Tax(₹)' and
    'Integrated Tax(₹)'.  With any other header configured for one of
    them, every call raises. *)
Theorem load_data_needs_fixed_labels (self : GSTMatcher)
  (company_file portal_file : option sheet) (company_df portal_df : sheet) :
  load_data to_datetime_cell add_cell self company_file portal_file
  = inr (company_df, portal_df) →
  (∀ label,
     label ∈ ["Invoice Date"; "CGST Amount"; "SGST Amount"; "IGST Amount"] →
     label ∈ company_columns self)
  ∧ (∀ label,
       label ∈ ["Invoice Date"; "Central Tax(₹)"; "State/UT Tax(₹)";
                "Integrated Tax(₹)"] →
       label ∈ portal_columns self).
Proof.
  intros (cs & ps & c0 & p0 & c1 & p1 & _ & _ & Hc0 & Hp0 & Hc1 & Hp1
          & Hc & Hp)%load_data_inr.
  apply getitem_columns_inr in Hc0 as (Hlc & _), Hp0 as (Hlp & _).
  apply parse_dates_inr in Hc1 as (dc & pc & Hdc & _ & ->).
  apply parse_dates_inr in Hp1 as (dp & pp & Hdp & _ & ->).
  apply add_total_inr in Hc as (c & s & i & _ & _ & Hcg & Hsg & Hig & _).
  apply add_total_inr in Hp as (c' & s' & i' & _ & _ & Hcg' & Hsg' & Hig' & _).
  rewrite lookup_setitem in Hcg, Hsg, Hig, Hcg', Hsg', Hig'.
  simpl in Hcg, Hsg, Hig, Hcg', Hsg', Hig'.
  assert (Hin : ∀ df label series,
             lookup_column df label = Some series → label ∈ labels df).
  { intros df label series H. apply lookup_column_is_Some. by eexists. }
  rewrite <- Hlc, <- Hlp. split; intros label Hl;
    repeat (apply elem_of_cons in Hl as [->|Hl]); eauto;
    by apply elem_of_nil in Hl.
Qed.

Lemma cell_at_setitem_other (df : sheet) (label label' : string)
  (series : list raw_cell) (i : nat) :
  label ≠ label' →
  cell_at (setitem df label series) label' i = cell_at df label' i.
Proof.
  intros Hne. unfold cell_at.
  by rewrite lookup_setitem, (proj2 (String.eqb_neq label label')).
Qed.


(** One table through the three steps of [load_data]. *)
Lemma loaded_table (columns : list string) (source d0 d1 d : sheet)
  (format cgst sgst igst : string) (n : nat) :
  getitem_columns source columns = inr d0 →
  parse_dates to_datetime_cell d0 format = inr d1 →
  add_total add_cell d1 cgst sgst igst = inr d →
  "Total" ∉ columns →
  has_rows n source →
  labels d = (columns ++ ["Total"])%list
  ∧ has_rows n d
  ∧ (∀ label, label ∈ columns → label ≠ "Invoice Date" →
              lookup_column d label = lookup_column source label)
  ∧ (∀ i raw, cell_at source "Invoice Date" i = Some raw →
              ∃ parsed, to_datetime_cell format raw = Some parsed
                        ∧ cell_at d "Invoice Date" i = Some parsed).
Proof.
  intros (Hl0 & Hlook & Hsub & _)%getitem_columns_inr
         (dates & parsed & Hdates & Hparsed & ->)%parse_dates_inr
         (c & s & g & cs & total & Hc & Hs & Hg & Hcs & Htot & ->)%add_total_inr
         HTotal Hrows.
  assert (Hin_date : "Invoice Date" ∈ columns).
  { rewrite <- Hl0. apply lookup_column_is_Some. by eexists. }
  assert (Hrows0 : has_rows n d0).
  { apply Forall_forall. intros col Hcol.
    exact (proj1 (Forall_forall _ _) Hrows col (Hsub col Hcol)). }
  assert (Hlen_dates : length dates = n) by by eapply has_rows_lookup.
  assert (Hrows1 : has_rows n (setitem d0 "Invoice Date" parsed)).
  { apply has_rows_setitem; [done|].
    by rewrite <- (Forall2_length _ _ _ Hparsed). }
  assert (Hl1 : labels (setitem d0 "Invoice Date" parsed) = columns).
  { rewrite labels_setitem, decide_True; [done|]. by rewrite Hl0. }
  split; [|split; [|split]].
  - rewrite labels_setitem, Hl1. by rewrite decide_False.
  - apply has_rows_setitem; [done|].
    rewrite <- (Forall2_length _ _ _ Htot), length_zip.
    rewrite <- (Forall2_length _ _ _ Hcs), length_zip.
    rewrite (has_rows_lookup n _ _ _ Hrows1 Hc).
    rewrite (has_rows_lookup n _ _ _ Hrows1 Hs).
    rewrite (has_rows_lookup n _ _ _ Hrows1 Hg). lia.
  - intros label Hin Hne. rewrite !lookup_setitem.
    rewrite (proj2 (String.eqb_neq "Total" label)) by by intros <-.
    rewrite (proj2 (String.eqb_neq "Invoice Date" label)) by done.
    by apply Hlook.
  - intros i raw Hraw. unfold cell_at in Hraw.
    rewrite <- (Hlook _ Hin_date), Hdates in Hraw. simpl in Hraw.
    destruct (Forall2_lookup_l _ _ _ _ _ Hparsed Hraw) as (p & Hp & Hpr).
    exists p. split; [done|].
    rewrite cell_at_setitem_other by done.
    unfold cell_at. rewrite lookup_setitem. simpl. done.
Qed.

(** X14.  When [load_data] returns, with distinct configured labels, none
    of them 'Total', each table has the configured columns in the
    configured order followed by 'Total' and as many rows as its sheet;
    every column but 'Invoice Date' holds the cells of the sheet
    unchanged, and every cell of 'Invoice Date' is what [to_datetime]
    makes, under the format configured for that table, of the sheet's
    cell. *)
Theorem load_data_keeps_columns (self : GSTMatcher)
  (company_sheet portal_sheet company_df portal_df : sheet) (n m : nat) :
  NoDup (company_columns self) → NoDup (portal_columns self) →
  "Total" ∉ company_columns self → "Total" ∉ portal_columns self →
  has_rows n company_sheet → has_rows m portal_sheet →
  load_data to_datetime_cell add_cell self (Some company_sheet)
    (Some portal_sheet) = inr (company_df, portal_df) →
  (labels company_df = (company_columns self ++ ["Total"])%list
   ∧ has_rows n company_df
   ∧ (∀ label, label ∈ company_columns self → label ≠ "Invoice Date" →
               lookup_column company_df label
               = lookup_column company_sheet label)
   ∧ (∀ i raw, cell_at company_sheet "Invoice Date" i = Some raw →
               ∃ parsed,
                 to_datetime_cell (date_formats_company (self_config self))
                   raw = Some parsed
                 ∧ cell_at company_df "Invoice Date" i = Some parsed))
  ∧ (labels portal_df = (portal_columns self ++ ["Total"])%list
     ∧ has_rows m portal_df
     ∧ (∀ label, label ∈ portal_columns self → label ≠ "Invoice Date" →
                 lookup_column portal_df label
                 = lookup_column portal_sheet label)
     ∧ (∀ i raw, cell_at portal_sheet "Invoice Date" i = Some raw →
                 ∃ parsed,
                   to_datetime_cell (date_formats_portal (self_config self))
                     raw = Some parsed
                   ∧ cell_at portal_df "Invoice Date" i = Some parsed)).
Proof.
  intros _ _ HTc HTp Hn Hm
    (cs & ps & c0 & p0 & c1 & p1 & [= <-] & [= <-] & Hc0 & Hp0 & Hc1 & Hp1
     & Hc & Hp)%load_data_inr.
  split; eapply loaded_table; eauto.
Qed.




Lemma add_numbers (a b : list raw_cell) :
  (∀ x y, add_cell (Number x) (Number y) = Some (Number (x + y))) →
  Forall (fun x => ∃ z, x = Number z) a →
  Forall (fun x => ∃ z, x = Number z) b →
  ∃ sums, add_series add_cell a b = inr sums
          ∧ Forall (fun x => ∃ z, x = Number z) sums.
Proof.
  intros Hadd Ha. revert b.
  assert (Hgen : ∀ b, Forall (fun x => ∃ z, x = Number z) b →
            ∃ sums,
              mapM (fun xy => add_cell (fst xy) (snd xy)) (zip a b) = Some sums
              ∧ Forall (fun x => ∃ z, x = Number z) sums).
  { induction Ha as [|x a [zx ->] _ IH]; intros b Hb.
    - exists []. by split.
    - destruct Hb as [|y b [zy ->] Hb]; [exists []; by split|].
      destruct (IH b Hb) as (sums & Hs & Hnum).
      exists (Number (zx + zy) :: sums). split.
      + apply mapM_Some_2. constructor; [apply Hadd|by apply mapM_Some_1].
      + constructor; [by eexists|done]. }
  intros b Hb. destruct (Hgen b Hb) as (sums & Hs & Hnum).
  exists sums. unfold add_series. by rewrite Hs.
Qed.

Lemma table_loads (columns : list string) (source : sheet)
  (format cgst sgst igst : string) :
  (∀ x y, add_cell (Number x) (Number y) = Some (Number (x + y))) →
  (∀ label, label ∈ columns → label ∈ labels source) →
  "Invoice Date" ∈ columns →
  cgst ∈ columns → sgst ∈ columns → igst ∈ columns →
  cgst ≠ "Invoice Date" → sgst ≠ "Invoice Date" → igst ≠ "Invoice Date" →
  parseable_dates to_datetime_cell source format →
  numeric_column source cgst → numeric_column source sgst →
  numeric_column source igst →
  ∃ d0 d1 d,
    getitem_columns source columns = inr d0
    ∧ parse_dates to_datetime_cell d0 format = inr d1
    ∧ add_total add_cell d1 cgst sgst igst = inr d.
Proof.
  intros Hadd Hall Hdate Hc Hs Hg Hcn Hsn Hgn (dates & Hdates & Hparse)
         (c & Hlc & Hnc) (s & Hls & Hns) (g & Hlg & Hng).
  destruct (getitem_columns source columns) as [[missing|]|d0] eqn:Hsel.
  - exfalso. unfold getitem_columns in Hsel.
    pose proof (select_columns_missing source columns) as Hm.
    destruct (select_columns source columns) as [[|l ls] found]; [done|].
    destruct (proj1 (Hm l)) as [Hl Hn]; [by left|]. by apply Hn, Hall.
  - unfold getitem_columns in Hsel.
    by destruct (select_columns source columns) as [[|l ls] found].
  - pose proof Hsel as (_ & Hlook & _)%getitem_columns_inr.
    destruct (proj2 (mapM_is_Some (to_datetime_cell format) dates))
      as [parsed Hparsed].
    { eapply Forall_impl; [exact Hparse|]. by intros raw. }
    exists d0, (setitem d0 "Invoice Date" parsed).
    assert (Hd1 : parse_dates to_datetime_cell d0 format
                  = inr (setitem d0 "Invoice Date" parsed)).
    { unfold parse_dates, getitem_column, to_datetime.
      rewrite (Hlook _ Hdate), Hdates. simpl. by rewrite Hparsed. }
    assert (Hcol : ∀ label, label ∈ columns → label ≠ "Invoice Date" →
              lookup_column (setitem d0 "Invoice Date" parsed) label
              = lookup_column source label).
    { intros label Hin Hne. rewrite lookup_setitem.
      rewrite (proj2 (String.eqb_neq "Invoice Date" label)) by done.
      by apply Hlook. }
    destruct (add_numbers c s Hadd Hnc Hns) as (cs & Hcs & Hncs).
    destruct (add_numbers cs g Hadd Hncs Hng) as (total & Htot & _).
    exists (setitem (setitem d0 "Invoice Date" parsed) "Total" total).
    split; [done|]. split; [done|].
    unfold add_total, getitem_column.
    rewrite !Hcol, Hlc, Hls, Hlg by done. simpl.
    rewrite Hcs. simpl. by rewrite Htot.
Qed.

(** X16.  With the default configuration (no configuration file),
    [load_data] returns whenever each sheet has the configured columns,
    [to_datetime] accepts every cell of its 'Invoice Date' column under
    the format of that table ([%d-%m-%Y] for the company and [%d/%m/%Y]
    for the portal) and its three tax columns hold numbers; further
    columns of a sheet are allowed and ignored. *)
Theorem load_data_default_returns (company_sheet portal_sheet : sheet) :
  (∀ x y, add_cell (Number x) (Number y) = Some (Number (x + y))) →
  (∀ label, label ∈ company_columns (init None) →
            label ∈ labels company_sheet) →
  (∀ label, label ∈ portal_columns (init None) →
            label ∈ labels portal_sheet) →
  parseable_dates to_datetime_cell company_sheet "%d-%m-%Y" →
  parseable_dates to_datetime_cell portal_sheet "%d/%m/%Y" →
  numeric_column company_sheet "CGST Amount" →
  numeric_column company_sheet "SGST Amount" →
  numeric_column company_sheet "IGST Amount" →
  numeric_column portal_sheet "Central Tax(₹)" →
  numeric_column portal_sheet "State/UT Tax(₹)" →
  numeric_column portal_sheet "Integrated Tax(₹)" →
  ∃ company_df portal_df,
    load_data to_datetime_cell add_cell (init None) (Some company_sheet)
      (Some portal_sheet) = inr (company_df, portal_df).
Proof.
  intros Hadd Hallc Hallp Hdc Hdp Hc1 Hc2 Hc3 Hp1 Hp2 Hp3.
  destruct (table_loads (company_columns (init None)) company_sheet
              "%d-%m-%Y" "CGST Amount" "SGST Amount" "IGST Amount")
    as (c0 & c1 & c & Hc0 & Hcd & Hct); try done;
    try (apply (bool_decide_unpack _); vm_compute; exact I).
  destruct (table_loads (portal_columns (init None)) portal_sheet
              "%d/%m/%Y" "Central Tax(₹)" "State/UT Tax(₹)"
              "Integrated Tax(₹)")
    as (p0 & p1 & p & Hp0 & Hpd & Hpt); try done;
    try (apply (bool_decide_unpack _); vm_compute; exact I).
  exists c, p. unfold load_data, load_data_body, read_columns.
  rewrite Hc0. cbn [and_then]. rewrite Hp0. cbn [and_then].
  change (date_formats_company (self_config (init None))) with "%d-%m-%Y".
  change (date_formats_portal (self_config (init None))) with "%d/%m/%Y".
  rewrite Hcd. cbn [and_then]. rewrite Hpd. cbn [and_then].
  rewrite Hct. cbn [and_then]. by rewrite Hpt.
Qed.

End LoaderProperties.

(** ** Sample loads *)

Example load_data_sample :
  load_data sample_to_datetime_cell sample_add_cell (init None)
    (Some company_sheet_sample) (Some portal_sheet_sample)
  = inr (company_table_sample, portal_table_sample).
Proof. vm_compute. reflexivity. Qed.

Lemma load_data_missing_column_witness :
  ∃ missing,
    load_data sample_to_datetime_cell sample_add_cell (init None)
      (Some company_sheet_short) None
    = inl (Column_not_found missing)
    ∧ ∀ label, label ∈ missing
               ↔ label ∈ company_columns (init None)
                 ∧ label ∉ labels company_sheet_short.
Proof.
  apply (proj1 (load_data_missing_column sample_to_datetime_cell
                  sample_add_cell (init None) company_sheet_short None)).
  exists "Party Name". split; by_computation.
Defined.

Lemma load_data_needs_fixed_labels_witness :
  (∀ label,
     label ∈ ["Invoice Date"; "CGST Amount"; "SGST Amount"; "IGST Amount"] →
     label ∈ company_columns (init None))
  ∧ (∀ label,
       label ∈ ["Invoice Date"; "Central Tax(₹)"; "State/UT Tax(₹)";
                "Integrated Tax(₹)"] →
       label ∈ portal_columns (init None)).
Proof.
  apply (load_data_needs_fixed_labels sample_to_datetime_cell sample_add_cell
           (init None) (Some company_sheet_sample) (Some portal_sheet_sample)
           company_table_sample portal_table_sample).
  vm_compute. reflexivity.
Defined.

Lemma load_data_keeps_columns_witness :
  (labels company_table_sample
   = (company_columns (init None) ++ ["Total"])%list
   ∧ has_rows 2 company_table_sample
   ∧ lookup_column company_table_sample "Invoice No"
     = lookup_column company_sheet_sample "Invoice No")
  ∧ labels portal_table_sample
    = (portal_columns (init None) ++ ["Total"])%list.
Proof.
  assert (Hc : NoDup (company_columns (init None))) by by_computation.
  assert (Hp : NoDup (portal_columns (init None))) by by_computation.
  assert (Htc : "Total" ∉ company_columns (init None)) by by_computation.
  assert (Htp : "Total" ∉ portal_columns (init None)) by by_computation.
  assert (Hrc : has_rows 2 company_sheet_sample) by by_computation.
  assert (Hrp : has_rows 1 portal_sheet_sample) by by_computation.
  destruct (load_data_keeps_columns sample_to_datetime_cell sample_add_cell
              (init None) company_sheet_sample portal_sheet_sample
              company_table_sample portal_table_sample 2 1
              Hc Hp Htc Htp Hrc Hrp load_data_sample)
    as [(Hl & Hr & Hsame & _) (Hl' & _)].
  split; [|exact Hl']. split; [exact Hl|]. split; [exact Hr|].
  apply Hsame; [by_computation|discriminate].
Defined.


Lemma load_data_default_returns_witness :
  ∃ company_df portal_df,
    load_data sample_to_datetime_cell sample_add_cell (init None)
      (Some company_sheet_sample) (Some portal_sheet_sample)
    = inr (company_df, portal_df).
Proof.
  apply load_data_default_returns.
  - intros x y. reflexivity.
  - apply Forall_forall. by_computation.
  - apply Forall_forall. by_computation.
  - eexists. split; [reflexivity|]. repeat constructor; by eexists.
  - eexists. split; [reflexivity|]. repeat constructor; by eexists.
  - eexists. split; [reflexivity|]. repeat constructor; by eexists.
  - eexists. split; [reflexivity|]. repeat constructor; by eexists.
  - eexists. split; [reflexivity|]. repeat constructor; by eexists.
  - eexists. split; [reflexivity|]. repeat constructor; by eexists.
  - eexists. split; [reflexivity|]. repeat constructor; by eexists.
  - eexists. split; [reflexivity|]. repeat constructor; by eexists.
Defined.

(** * From the loader to the matcher *)







Section Pipeline.
Variable to_datetime_cell : string -> raw_cell -> option raw_cell.
Variable add_cell : raw_cell -> raw_cell -> option raw_cell.
Hypothesis add_cell_numbers :
  ∀ x y, add_cell (Number x) (Number y) = Some (Number (x + y)).






End Pipeline.




(** ** Which error [load_data] raises *)

Section LoaderErrors.
Variable to_datetime_cell : string -> raw_cell -> option raw_cell.
Variable add_cell : raw_cell -> raw_cell -> option raw_cell.



End LoaderErrors.


(** ** The company table as a collection *)

Lemma exact_pairs_company_Permutation (company_df company_df'
  : list Company.row) (portal_df : list Portal.row) :
  company_df ≡ₚ company_df' →
  exact_pairs company_df portal_df ≡ₚ exact_pairs company_df' portal_df.
Proof. intros HC. unfold exact_pairs. by rewrite HC. Qed.

(** X20.  The order of the company rows only orders the output: on two
    company tables with the same rows in different orders the call raises
    the same exception, or returns the same matched records and the same
    unmatched records, each list in an order that may differ. *)
Theorem company_order_irrelevant (company_df company_df' : list Company.row)
  (portal_df : list Portal.row) (buffer_size : Z) :
  company_df ≡ₚ company_df' →
  match snd (match_invoices company_df portal_df buffer_size),
        snd (match_invoices company_df' portal_df buffer_size) with
  | inl e, inl e' => e = e'
  | inr (matched, unmatched), inr (matched', unmatched') =>
      matched ≡ₚ matched' ∧ unmatched ≡ₚ unmatched'
  | _, _ => False
  end.
Proof.
  intros HC. rewrite !match_invoices_outcome.
  assert (HM : pass1_matched_invoices company_df portal_df
               = pass1_matched_invoices company_df' portal_df).
  { unfold pass1_matched_invoices, matched_invoices_of.
    apply list_to_set_perm_L, Permutation_map.
    by apply exact_pairs_company_Permutation. }
  assert (Hiff : reaches_comparison company_df portal_df buffer_size
                 ↔ reaches_comparison company_df' portal_df buffer_size).
  { unfold reaches_comparison. rewrite !has_candidate_exists, HM.
    by setoid_rewrite HC. }
  destruct (decide (reaches_comparison company_df portal_df _)) as [Hr|Hn].
  - by rewrite decide_True by by apply Hiff.
  - rewrite decide_False by by rewrite <- Hiff. split.
    + by apply Permutation_map, exact_pairs_company_Permutation.
    + apply Permutation_map. unfold unmatched_after_pass1, not_isin.
      by rewrite HM, HC.
Qed.

Lemma company_order_irrelevant_witness :
  match snd (match_invoices [company_inv001; company_inv007]
               [portal_inv001] 0),
        snd (match_invoices [company_inv007; company_inv001]
               [portal_inv001] 0) with
  | inl e, inl e' => e = e'
  | inr (matched, unmatched), inr (matched', unmatched') =>
      matched ≡ₚ matched' ∧ unmatched ≡ₚ unmatched'
  | _, _ => False
  end.
Proof.
  apply company_order_irrelevant. apply perm_swap.
Defined.
